(** * medkit: span extraction, provenance and the NER matchers

    A shallow embedding of
      - medkit/text/ner/duckling_matcher.py   (DucklingMatcher),
      - medkit/text/ner/quick_umls_matcher.py (QuickUMLSMatcher),
      - the data of tests/text/test_segmentation.py,
    together with the parts of medkit.core they call into
    (span_utils.extract, the annotation constructors, generate_id and the
    provenance builder), which are modelled from the specification. *)

From Stdlib Require Import ZArith String Ascii List Bool Lia.
From stdpp Require Import gmap strings list fin_maps sorting.

Open Scope Z_scope.

(** ** Python values, exceptions and results *)

Module Py.

(** The values that travel through the matchers untouched: JSON payloads
    of the Duckling server, attribute values, metadata and configuration
    entries.  A float is kept as its IEEE-754 binary64 bit pattern; it is
    only ever carried around. *)
#[warnings="-register-all"] Inductive PyValue : Type :=
  | PyNone
  | PyBool (b : bool)
  | PyInt (z : Z)
  | PyFloat (bits : Z)
  | PyStr (s : string)
  | PyList (l : list PyValue)
  | PyDict (d : list (string * PyValue)).

(** The exceptions the modelled code raises.  [Exception_] is Python's
    [Exception]; [DuplicateRegistration] is the failure of a second
    registration under one id, whose class the specification does not
    name.  [IllTypedArgument] is not a Python exception: it marks a call
    whose arguments do not have the types of the signature's annotations,
    which the typed model cannot represent. *)
Inductive PyException : Type :=
  | ConnectionError
  | TypeError
  | ValueError
  | IndexError
  | AssertionError
  | Exception_
  | DuplicateRegistration
  | IllTypedArgument.

Inductive Result (A : Type) : Type :=
  | Ok (a : A)
  | Raise (e : PyException).
Arguments Ok {A} a.
Arguments Raise {A} e.

Definition is_ok {A} (r : Result A) : bool :=
  match r with Ok _ => true | Raise _ => false end.

Definition rbind {A B} (r : Result A) (k : A -> Result B) : Result B :=
  match r with
  | Ok a => k a
  | Raise e => Raise e
  end.

(** [text[start:end]] for [0 <= start <= end <= len(text)]. *)
Definition slice (text : string) (start end_ : Z) : string :=
  String.substring (Z.to_nat start) (Z.to_nat (end_ - start)) text.

Definition len (text : string) : Z := Z.of_nat (String.length text).

End Py.
Export Py.

(** ** Spans and the span algebra *)

(** [Span(start, end)]: a half-open range of offsets in the reference
    text. *)
Module Span.
Record t : Type := mk { start : Z; end_ : Z }.
End Span.

(** [ModifiedSpan(length, replaced_spans)]: [length] characters that
    replace the listed parts of the reference text; an entry is [None]
    when the inserted text has no source counterpart. *)
Module ModifiedSpan.
Record t : Type := mk { length : Z; replaced_spans : list (option Span.t) }.
End ModifiedSpan.

Module SpanUtils.

Inductive AnySpan : Type :=
  | Simple (s : Span.t)
  | Modified (m : ModifiedSpan.t).

Definition span_length (sp : AnySpan) : Z :=
  match sp with
  | Simple s => Span.end_ s - Span.start s
  | Modified m => ModifiedSpan.length m
  end.

(** Ranges are given in increasing order, do not overlap, are not
    reversed and stay within the text: [prev] is the end of the previous
    range. *)
Fixpoint ranges_ok (text_len prev : Z) (ranges : list (Z * Z)) : bool :=
  match ranges with
  | [] => true
  | (s, e) :: rest =>
      (prev <=? s) && (s <=? e) && (e <=? text_len) && ranges_ok text_len e rest
  end.

Section Extract.

(** The specification leaves open what a range that cuts a modified
    span in two yields (it "splits cleanly" only in some cases and must
    raise in the others): that part is a parameter.  It receives the
    modified span and the part of it that is requested, as offsets
    inside the span. *)
Variable split_modified : ModifiedSpan.t -> Z -> Z -> Result (list AnySpan).

(** The spans denoting [text[s:e]], where [off] is the offset in the
    text at which [spans] starts: a running offset is accumulated over
    the spans, a simple span is trimmed to its overlap with the range,
    a modified span that lies inside the range is kept whole. *)
Fixpoint extract_in_spans (spans : list AnySpan) (off s e : Z)
  : Result (list AnySpan) :=
  match spans with
  | [] => Ok []
  | sp :: rest =>
      let n := span_length sp in
      let lo := Z.max s off in
      let hi := Z.min e (off + n) in
      if lo <? hi then
        rbind
          (match sp with
           | Simple sp0 =>
               Ok [Simple (Span.mk (Span.start sp0 + (lo - off))
                                   (Span.start sp0 + (hi - off)))]
           | Modified m =>
               if (lo =? off) && (hi =? off + n) then Ok [Modified m]
               else split_modified m (lo - off) (hi - off)
           end)
          (fun piece =>
             rbind (extract_in_spans rest (off + n) s e)
                   (fun more => Ok (piece ++ more)))
      else extract_in_spans rest (off + n) s e
  end.

Fixpoint extract_ranges (text : string) (spans : list AnySpan)
         (ranges : list (Z * Z)) : Result (string * list AnySpan) :=
  match ranges with
  | [] => Ok (EmptyString, [])
  | (s, e) :: rest =>
      rbind (extract_in_spans spans 0 s e)
            (fun sps =>
               rbind (extract_ranges text spans rest)
                     (fun '(t, more) =>
                        Ok (String.append (slice text s e) t, sps ++ more)))
  end.

(** Modelled from the spec: [span_utils.extract(text, spans, ranges)]
    of medkit.core.text, whose module is not among the sources.  The
    new text is the concatenation of the selected substrings in the
    order of [ranges]; the new spans denote it against the reference
    text; ranges out of order, overlapping, reversed or out of bounds
    fail with a ValueError; an empty list of ranges yields the empty
    text and no span. *)
Definition extract (text : string) (spans : list AnySpan)
           (ranges : list (Z * Z)) : Result (string * list AnySpan) :=
  if ranges_ok (len text) 0 ranges then extract_ranges text spans ranges
  else Raise ValueError.

End Extract.

(** The strictest reading of the parameter: every cut through a modified
    span is refused. *)
Definition split_refused (m : ModifiedSpan.t) (lo hi : Z) : Result (list AnySpan) :=
  Raise ValueError.

(** The type of [span_utils.extract], for the code that calls it. *)
Definition extract_fn : Type :=
  string -> list AnySpan -> list (Z * Z) -> Result (string * list AnySpan).

End SpanUtils.
Export SpanUtils.

(** ** Annotations, operation descriptions and provenance *)

(** Identifiers as [generate_id] hands them out (strings in the source;
    all that is used of them is that they differ). *)
Definition Id : Type := nat.

(** Modelled from the spec: the [Attribute] class of medkit.core, whose
    module is not among the sources: [id], [label], [value] and
    [metadata].  An Attribute object is identified by its [id]: the
    constructor draws it from [generate_id], so two occurrences with the
    same [id] are one and the same object, and a copy would carry an [id]
    of its own. *)
Module Attribute.
Record t : Type :=
  mk { id : Id; label : string; value : PyValue;
       metadata : list (string * PyValue) }.
End Attribute.

(** Modelled from the spec: the [Segment] class of medkit.core.text:
    [id], [label], [text], [spans] and the attributes attached to it. *)
Module Segment.
Record t : Type :=
  mk { id : Id; label : string; text : string; spans : list AnySpan;
       attrs : list Attribute.t }.

(** Modelled from the spec: [segment.get_attrs_by_label(label)], the
    attributes of the segment that have this label, in their order. *)
Definition get_attrs_by_label (self : t) (l : string) : list Attribute.t :=
  filter (fun a => Attribute.label a = l) (attrs self).
End Segment.

(** Modelled from the spec: the [Entity] class of medkit.core.text, of the
    same shape as a segment. *)
Module Entity.
Record t : Type :=
  mk { id : Id; label : string; text : string; spans : list AnySpan;
       attrs : list Attribute.t }.

(** Modelled from the spec: [entity.add_attr(attr)]: the object itself
    is attached, after the attributes that are there already. *)
Definition add_attr (self : t) (a : Attribute.t) : t :=
  mk (id self) (label self) (text self) (spans self) (attrs self ++ [a]).
End Entity.

(** [OperationDescription(id, name, config)] *)
Module OperationDescription.
Record t : Type :=
  mk { id : Id; name : string; config : gmap string PyValue }.
End OperationDescription.

(** What is handed to [add_prov], as data item or as source. *)
Inductive DataItem : Type :=
| ItemSegment (s : Segment.t)
| ItemEntity (e : Entity.t)
| ItemAttribute (a : Attribute.t).

Definition item_id (d : DataItem) : Id :=
  match d with
  | ItemSegment s => Segment.id s
  | ItemEntity e => Entity.id e
  | ItemAttribute a => Attribute.id a
  end.

(** A node of the provenance graph.  It keeps the description the item was
    recorded with; the specification's [operation_id] is that
    description's id. *)
Module ProvNode.
Record t : Type :=
  mk { data_item_id : Id; operation : OperationDescription.t;
       source_ids : list Id }.
Definition operation_id (n : t) : Id := OperationDescription.id (operation n).
End ProvNode.

(** A [ProvBuilder] (or prov tracer) attached to an operation: a handle on
    the provenance graph of the process. *)
Inductive ProvBuilder : Type := ProcessProv.

(** The settings of a QuickUMLS install: the named tuple
    [_QuickUMLSInstall(version, language, lowercase, normalize_unicode)]. *)
Abbreviation _QuickUMLSInstall := (string * string * bool * bool)%type.

(** ** The world the operations run in *)

Module World.
(** The mutable state of the process: the next identifier of
    [generate_id], the nodes of the provenance graph in the order of
    their recording, the warnings issued, and the module- and class-level
    variables of quick_umls_matcher.py. *)
Record t : Type :=
  mk { next_id : Id;
       graph : list ProvNode.t;
       warnings : list string;
       _install_paths : gmap _QuickUMLSInstall string;
       _spacy_language_map_fixed : bool;
       SPACY_LANGUAGE_MAP : gmap string string }.

Definition set_next_id (n : Id) (w : t) : t :=
  mk n (graph w) (warnings w) (_install_paths w)
     (_spacy_language_map_fixed w) (SPACY_LANGUAGE_MAP w).
Definition set_graph (g : list ProvNode.t) (w : t) : t :=
  mk (next_id w) g (warnings w) (_install_paths w)
     (_spacy_language_map_fixed w) (SPACY_LANGUAGE_MAP w).
Definition set_warnings (ws : list string) (w : t) : t :=
  mk (next_id w) (graph w) ws (_install_paths w)
     (_spacy_language_map_fixed w) (SPACY_LANGUAGE_MAP w).
Definition set_install_paths (p : gmap _QuickUMLSInstall string) (w : t) : t :=
  mk (next_id w) (graph w) (warnings w) p
     (_spacy_language_map_fixed w) (SPACY_LANGUAGE_MAP w).
Definition set_spacy_language_map (fixed : bool) (m : gmap string string)
           (w : t) : t :=
  mk (next_id w) (graph w) (warnings w) (_install_paths w) fixed m.
End World.

(** ** Computations: state passing with exceptions

    A computation takes the world and returns a result or an exception
    together with the world it leaves behind; what was done before an
    exception stays done. *)

Definition M (A : Type) : Type := World.t -> Result A * World.t.

Definition ret {A} (a : A) : M A := fun w => (Ok a, w).

Definition raise {A} (e : PyException) : M A := fun w => (Raise e, w).

Definition lift {A} (r : Result A) : M A := fun w => (r, w).

Definition bind {A B} (c : M A) (k : A -> M B) : M B :=
  fun w =>
    match c w with
    | (Ok a, w') => k a w'
    | (Raise e, w') => (Raise e, w')
    end.

Declare Scope comp_scope.
Delimit Scope comp_scope with comp.
Bind Scope comp_scope with M.
Notation "x <- c ;; k" := (bind c (fun x => k))
  (at level 100, c at next level, right associativity) : comp_scope.
Notation "c ;;; k" := (bind c (fun _ => k))
  (at level 100, right associativity) : comp_scope.
Open Scope comp_scope.

(** A [for] loop of a generator (or of a comprehension over generators):
    every iteration yields its items, in order. *)
Fixpoint for_yield {A B} (body : A -> M (list B)) (xs : list A) : M (list B) :=
  match xs with
  | [] => ret []
  | x :: rest =>
      ys <- body x ;;
      more <- for_yield body rest ;;
      ret (ys ++ more)
  end.

(** Modelled from the spec: [generate_id()] of medkit.core: a
    process-unique identifier. *)
Definition generate_id : M Id :=
  fun w => (Ok (World.next_id w), World.set_next_id (S (World.next_id w)) w).

(** [warnings.warn(message)] *)
Definition warn (message : string) : M unit :=
  fun w => (Ok tt, World.set_warnings (World.warnings w ++ [message]) w).

(** Modelled from the spec: the constructor [Attribute(label=, value=,
    metadata=)], which gives the new object an id of its own. *)
Definition new_Attribute (label : string) (value : PyValue)
           (metadata : list (string * PyValue)) : M Attribute.t :=
  i <- generate_id ;;
  ret (Attribute.mk i label value metadata).

(** Modelled from the spec: the constructor [Entity(label=, text=,
    spans=, attrs=)], which gives the new object an id of its own; the
    list of attributes is kept as it is given, with the objects in it,
    and is empty when none is given. *)
Definition new_Entity (label text : string) (spans : list AnySpan)
           (attrs : list Attribute.t) : M Entity.t :=
  i <- generate_id ;;
  ret (Entity.mk i label text spans attrs).

(** The node recorded for an id, if there is one. *)
Definition get_node (g : list ProvNode.t) (i : Id) : option ProvNode.t :=
  List.find (fun n => Nat.eqb (ProvNode.data_item_id n) i) g.

(** Modelled from the spec: [add_prov(data_item, operation_description,
    source_data_items)] of the provenance builder of medkit.core: records
    a node keyed by the id of the data item, and fails if there is one
    already. *)
Definition add_prov (pb : ProvBuilder) (data_item : DataItem)
           (op : OperationDescription.t) (source_data_items : list DataItem)
  : M unit :=
  fun w =>
    match get_node (World.graph w) (item_id data_item) with
    | Some _ => (Raise DuplicateRegistration, w)
    | None =>
        (Ok tt,
         World.set_graph
           (World.graph w ++
              [ProvNode.mk (item_id data_item) op (map item_id source_data_items)])
           w)
    end.

(** ** medkit/text/ner/duckling_matcher.py *)

(** One entry of the JSON list a Duckling server answers to [/parse]. *)
Module DucklingMatch.
Record t : Type := mk { dim : string; start : Z; end_ : Z; value : PyValue }.
End DucklingMatch.

(** The response of the [requests] library, as far as it is read: the
    status code and, for [/parse], the decoded JSON body. *)
Module Response.
Record t : Type := mk { status_code : Z; json : list DucklingMatch.t }.
End Response.

(** [s.replace(old, new)] for single characters. *)
Fixpoint replace_char (old new : ascii) (s : string) : string :=
  match s with
  | EmptyString => EmptyString
  | String c rest =>
      String (if Ascii.eqb c old then new else c) (replace_char old new rest)
  end.

(** [", ".join(parts)] *)
Fixpoint join_comma (parts : list string) : string :=
  match parts with
  | [] => EmptyString
  | [p] => p
  | p :: rest => String.append p (String.append ", " (join_comma rest))
  end.

Definition as_str (v : PyValue) : option string :=
  match v with PyStr s => Some s | _ => None end.

Fixpoint as_str_list_items (l : list PyValue) : option (list string) :=
  match l with
  | [] => Some []
  | v :: rest =>
      match as_str v, as_str_list_items rest with
      | Some s, Some more => Some (s :: more)
      | _, _ => None
      end
  end.

Definition as_str_list (v : PyValue) : option (list string) :=
  match v with PyList l => as_str_list_items l | _ => None end.

(** A value of type [Optional[List[str]]]. *)
Definition as_optional_str_list (v : PyValue) : option (option (list string)) :=
  match v with
  | PyNone => Some None
  | _ => option_map Some (as_str_list v)
  end.

Definition of_str_list (l : list string) : PyValue := PyList (map PyStr l).

Definition of_optional_str_list (o : option (list string)) : PyValue :=
  match o with None => PyNone | Some l => of_str_list l end.

Module DucklingMatcher.

Record t : Type :=
  mk { id : Id;
       output_label : string;
       version : string;
       url : string;
       locale : string;
       dims : option (list string);
       attrs_to_copy : list string;
       _prov_builder : option ProvBuilder }.

Definition __name__ : string := "DucklingMatcher".

Definition description (self : t) : OperationDescription.t :=
  let config : gmap string PyValue :=
    list_to_map
      [("output_label", PyStr (output_label self));
       ("version", PyStr (version self));
       ("url", PyStr (url self));
       ("locale", PyStr (locale self));
       ("dims", of_optional_str_list (dims self));
       ("attrs_to_copy", of_str_list (attrs_to_copy self))] in
  OperationDescription.mk (id self) __name__ config.

Definition set_prov_builder (self : t) (prov_builder : ProvBuilder) : t :=
  mk (id self) (output_label self) (version self) (url self) (locale self)
     (dims self) (attrs_to_copy self) (Some prov_builder).

(** The configuration of a matcher: everything but the attached
    provenance builder. *)
Definition same_configuration (a b : t) : Prop :=
  id a = id b /\ output_label a = output_label b /\ version a = version b /\
  url a = url b /\ locale a = locale b /\ dims a = dims b /\
  attrs_to_copy a = attrs_to_copy b.

Section Run.

(** The outside world of the matcher: [span_utils.extract], Python's
    [repr] on strings, and the Duckling server behind
    [requests.get(url)] and [requests.post(url, data=payload)], whose
    answer is taken to depend on the request only. *)
Variable extract : extract_fn.
Variable repr : string -> string.
Variable requests_get : string -> Response.t.
Variable requests_post : string -> list (string * string) -> Response.t.

Definition _test_connection (self : t) : M unit :=
  let api_result := requests_get (url self) in
  if negb (Response.status_code api_result =? 200)
  then raise ConnectionError
  else ret tt.

Definition __init__ (output_label version url locale : string)
           (dims attrs_to_copy : option (list string))
           (proc_id : option Id) : M t :=
  proc_id <- match proc_id with
             | None => generate_id
             | Some p => ret p
             end ;;
  let attrs_to_copy := match attrs_to_copy with
                       | None => []
                       | Some l => l
                       end in
  let self := mk proc_id output_label version url locale dims
                 attrs_to_copy None in
  _test_connection self ;;;
  ret self.


(** The names of the parameters that [**description.config] may bind:
    those of [__init__] but [proc_id], which the call passes itself. *)
Definition config_parameters : gset string :=
  list_to_set ["output_label"; "version"; "url"; "locale"; "dims";
               "attrs_to_copy"].

(** A keyword argument that has a default. *)
Definition keyword {A} (kwargs : gmap string PyValue) (name : string)
           (read : PyValue -> option A) (default : A) : Result A :=
  match kwargs !! name with
  | None => Ok default
  | Some v =>
      match read v with
      | Some a => Ok a
      | None => Raise IllTypedArgument
      end
  end.

(** A keyword argument that has none: leaving it out is a TypeError. *)
Definition required {A} (kwargs : gmap string PyValue) (name : string)
           (read : PyValue -> option A) : Result A :=
  match kwargs !! name with
  | None => Raise TypeError
  | Some v =>
      match read v with
      | Some a => Ok a
      | None => Raise IllTypedArgument
      end
  end.

(** [cls(proc_id=description.id, **description.config)]: an entry of
    the configuration that names no parameter, or names [proc_id]
    again, is a TypeError, as is a missing [output_label] or
    [version]. *)
Definition from_description (description : OperationDescription.t) : M t :=
  let kwargs := OperationDescription.config description in
  if negb (bool_decide (dom kwargs ⊆ config_parameters))
  then raise TypeError
  else
    output_label <- lift (required kwargs "output_label" as_str) ;;
    version <- lift (required kwargs "version" as_str) ;;
    url <- lift (keyword kwargs "url" as_str "http://localhost:8000") ;;
    locale <- lift (keyword kwargs "locale" as_str "fr_FR") ;;
    dims <- lift (keyword kwargs "dims" as_optional_str_list None) ;;
    attrs_to_copy <-
      lift (keyword kwargs "attrs_to_copy" as_optional_str_list None) ;;
    __init__ output_label version url locale dims attrs_to_copy
             (Some (OperationDescription.id description)).

(** [str(self.dims)] with every single quote replaced by a double
    quote (character 34). *)
Definition encode_dims (dims : list string) : string :=
  replace_char "'"%char "034"%char
    (String.append "[" (String.append (join_comma (map repr dims)) "]")).

(** The body of the loop over the matches of a segment, in
    [_find_matches_in_segment]: what one match yields. *)
Definition entities_of_match (self : t) (segment : Segment.t)
           (match_ : DucklingMatch.t) : M (list Entity.t) :=
  match dims self with
  | None => raise TypeError
  | Some self_dims =>
      if negb (bool_decide (DucklingMatch.dim match_ ∈ self_dims)) then
        warn "Dims are not properly filtered by duckling API call" ;;;
        ret []
      else
        extracted <-
          lift (extract (Segment.text segment) (Segment.spans segment)
                        [(DucklingMatch.start match_,
                          DucklingMatch.end_ match_)]) ;;
        let text := fst extracted in
        let spans := snd extracted in
        let attrs :=
          filter (fun a => Attribute.label a ∈ attrs_to_copy self)
                 (Segment.attrs segment) in
        norm_attr <-
          new_Attribute (output_label self) (DucklingMatch.value match_)
                        [("version", PyStr (version self))] ;;
        let attrs := attrs ++ [norm_attr] in
        entity <- new_Entity (DucklingMatch.dim match_) text spans attrs ;;
        match _prov_builder self with
        | None => ret tt
        | Some prov_builder =>
            add_prov prov_builder (ItemEntity entity) (description self)
                     [ItemSegment segment] ;;;
            add_prov prov_builder (ItemAttribute norm_attr)
                     (description self) [ItemSegment segment]
        end ;;;
        ret [entity]
  end.

(** The form data of the request for a segment. *)
Definition payload (self : t) (segment : Segment.t) : list (string * string) :=
  [("locale", locale self); ("text", Segment.text segment)] ++
  match dims self with
  | None => []
  | Some self_dims => [("dims", encode_dims self_dims)]
  end.

(** [requests.post(f"{self.url}/parse", data=payload)] *)
Definition api_result (self : t) (segment : Segment.t) : Response.t :=
  requests_post (String.append (url self) "/parse") (payload self segment).

Definition _find_matches_in_segment (self : t) (segment : Segment.t)
  : M (list Entity.t) :=
  let api_result := api_result self segment in
  if negb (Response.status_code api_result =? 200)
  then raise ConnectionError
  else for_yield (entities_of_match self segment) (Response.json api_result).

Definition run (self : t) (segments : list Segment.t) : M (list Entity.t) :=
  for_yield (_find_matches_in_segment self) segments.

End Run.

End DucklingMatcher.

(** ** medkit/text/ner/quick_umls_matcher.py *)

(** One candidate of a match location, as QuickUMLS reports it; the
    similarity is a float, the semantic types are listed in the order in
    which [list(match["semtypes"])] enumerates them. *)
Module Candidate.
Record t : Type :=
  mk { start : Z; end_ : Z; term : string; cui : string; similarity : Z;
       semtypes : list string }.
End Candidate.

(** The [QuickUMLS] object of the quickumls library, as far as the matcher
    uses it: the flags of its install and its [match] method, which
    returns, for each location of the text, the list of its candidates. *)
Module QuickUMLS.
Record t : Type :=
  mk { language_flag : string;
       to_lowercase_flag : bool;
       normalize_unicode_flag : bool;
       match_ : string -> list (list Candidate.t) }.
End QuickUMLS.

(** A [Union[str, Path]]; a [Path] is kept as the string [str(path)]
    renders it to. *)
Inductive PathLike : Type :=
| PathStr (s : string)
| PathObject (rendered : string).

(** [str(path)] *)
Definition str (path : PathLike) : string :=
  match path with
  | PathStr s => s
  | PathObject rendered => rendered
  end.

Module QuickUMLSMatcher.

(** The arguments of [__init__], the ones with a default included. *)
Module InitArgs.
Record t : Type :=
  mk { version : string;
       language : string;
       lowercase : bool;
       normalize_unicode : bool;
       overlapping : string;
       threshold : Z;
       window : Z;
       similarity : string;
       accepted_semtypes : list string;
       attrs_to_copy : option (list string);
       name : option string;
       uid : option Id }.
End InitArgs.

Record t : Type :=
  mk { uid : Id;
       description : OperationDescription.t;
       _prov_tracer : option ProvBuilder;
       language : string;
       version : string;
       lowercase : bool;
       normalize_unicode : bool;
       overlapping : string;
       threshold : Z;
       similarity : string;
       window : Z;
       accepted_semtypes : list string;
       attrs_to_copy : list string;
       _matcher : QuickUMLS.t }.

Definition __name__ : string := "QuickUMLSMatcher".

(** Modelled from the spec: [set_prov_tracer], which the matcher inherits
    from [NEROperation]: it attaches the provenance sink. *)
Definition set_prov_tracer (self : t) (prov_tracer : ProvBuilder) : t :=
  mk (uid self) (description self) (Some prov_tracer) (language self)
     (version self) (lowercase self) (normalize_unicode self)
     (overlapping self) (threshold self) (similarity self) (window self)
     (accepted_semtypes self) (attrs_to_copy self) (_matcher self).

(** *** The registry of installs *)

(** [cls._install_paths[install] = str(path)] *)
Definition add_install (path : PathLike) (version language : string)
           (lowercase normalize_unicode : bool) : M unit :=
  fun w =>
    let install : _QuickUMLSInstall :=
      (version, language, lowercase, normalize_unicode) in
    (Ok tt,
     World.set_install_paths (<[install := str path]> (World._install_paths w)) w).

(** [cls._install_paths.clear()] *)
Definition clear_installs : M unit :=
  fun w => (Ok tt, World.set_install_paths ∅ w).

Definition _get_path_to_install (version language : string)
           (lowercase normalize_unicode : bool) : M string :=
  fun w =>
    let install : _QuickUMLSInstall :=
      (version, language, lowercase, normalize_unicode) in
    match World._install_paths w !! install with
    | None => (Raise Exception_, w)
    | Some path => (Ok path, w)
    end.

(** A call on the registry, for sequences of them. *)
Inductive RegistryCall : Type :=
  | AddInstall (path : PathLike) (version language : string)
               (lowercase normalize_unicode : bool)
  | ClearInstalls.

Definition registry_call (c : RegistryCall) : M unit :=
  match c with
  | AddInstall path version language lowercase normalize_unicode =>
      add_install path version language lowercase normalize_unicode
  | ClearInstalls => clear_installs
  end.

Fixpoint registry_calls (cs : list RegistryCall) : M unit :=
  match cs with
  | [] => ret tt
  | c :: rest => registry_call c ;;; registry_calls rest
  end.

(** The call registers an install with these settings. *)
Definition registers (install : _QuickUMLSInstall) (c : RegistryCall) : Prop :=
  match c with
  | AddInstall _ version language lowercase normalize_unicode =>
      install = (version, language, lowercase, normalize_unicode)
  | ClearInstalls => False
  end.

Section Run.

(** The outside world of the matcher: [span_utils.extract], the
    constructor of the quickumls library, whether the installed
    quickumls is older than 1.4.1, and what [NEROperation] keeps of the
    arguments of [__init__] as the configuration of the description. *)
Variable extract : extract_fn.
Variable new_QuickUMLS :
  string -> string -> Z -> Z -> string -> list string -> Result QuickUMLS.t.
Variable quickumls_before_1_4_1 : bool.
Variable config_of : InitArgs.t -> gmap string PyValue.

Definition _fix_spacy_language_map : M unit :=
  fun w =>
    if World._spacy_language_map_fixed w then (Ok tt, w)
    else
      let fixed_map :=
        if quickumls_before_1_4_1 then
          (fun value : string =>
             let ext := if String.eqb value "en" then "_core_web_sm"
                        else "_core_news_sm" in
             String.append value ext) <$> World.SPACY_LANGUAGE_MAP w
        else World.SPACY_LANGUAGE_MAP w in
      (Ok tt, World.set_spacy_language_map true fixed_map w).

(** Modelled from the spec: [NEROperation.__init__], called with all
    the arguments, whose class is not among the sources: a producer has
    a stable id (a generated one when none is given), and a description
    made of that id, of its name (the name of the class when none is
    given) and of its configuration; no provenance sink is attached
    yet. *)
Definition NEROperation__init__ (init_args : InitArgs.t)
  : M (Id * OperationDescription.t) :=
  uid <- match InitArgs.uid init_args with
         | None => generate_id
         | Some u => ret u
         end ;;
  let name := match InitArgs.name init_args with
              | None => __name__
              | Some n => n
              end in
  ret (uid, OperationDescription.mk uid name (config_of init_args)).

Definition __init__ (init_args : InitArgs.t) : M t :=
  _fix_spacy_language_map ;;;
  super <- NEROperation__init__ init_args ;;
  let attrs_to_copy := match InitArgs.attrs_to_copy init_args with
                       | None => []
                       | Some l => l
                       end in
  let version := InitArgs.version init_args in
  let language := InitArgs.language init_args in
  let lowercase := InitArgs.lowercase init_args in
  let normalize_unicode := InitArgs.normalize_unicode init_args in
  path_to_install <-
    _get_path_to_install version language lowercase normalize_unicode ;;
  _matcher <-
    lift (new_QuickUMLS path_to_install
            (InitArgs.overlapping init_args)
            (InitArgs.threshold init_args)
            (InitArgs.window init_args)
            (InitArgs.similarity init_args)
            (InitArgs.accepted_semtypes init_args)) ;;
  if negb (String.eqb (QuickUMLS.language_flag _matcher) language
           && Bool.eqb (QuickUMLS.to_lowercase_flag _matcher) lowercase
           && Bool.eqb (QuickUMLS.normalize_unicode_flag _matcher)
                       normalize_unicode)
  then raise AssertionError
  else
    ret (mk (fst super) (snd super) None language version lowercase
            normalize_unicode (InitArgs.overlapping init_args)
            (InitArgs.threshold init_args) (InitArgs.similarity init_args)
            (InitArgs.window init_args)
            (InitArgs.accepted_semtypes init_args) attrs_to_copy _matcher).

(** The attributes of the segment that the loop over [attrs_to_copy]
    attaches to the entity, in the order of their attachment. *)
Definition copied_attrs (self : t) (segment : Segment.t) : list Attribute.t :=
  flat_map (Segment.get_attrs_by_label segment) (attrs_to_copy self).

(** The body of the loop over the match locations of a segment, in
    [_find_matches_in_segment]: what one location yields. *)
Definition entities_of_candidates (self : t) (segment : Segment.t)
           (match_candidates : list Candidate.t) : M (list Entity.t) :=
  match match_candidates with
  | [] => raise IndexError
  | match_ :: _ =>
      extracted <-
        lift (extract (Segment.text segment) (Segment.spans segment)
                      [(Candidate.start match_, Candidate.end_ match_)]) ;;
      let text := fst extracted in
      let spans := snd extracted in
      entity <- new_Entity (Candidate.term match_) text spans [] ;;
      let entity :=
        fold_left Entity.add_attr (copied_attrs self segment) entity in
      norm_attr <-
        new_Attribute "umls" (PyStr (Candidate.cui match_))
          [("version", PyStr (version self));
           ("score", PyFloat (Candidate.similarity match_));
           ("sem_types", of_str_list (Candidate.semtypes match_))] ;;
      let entity := Entity.add_attr entity norm_attr in
      match _prov_tracer self with
      | None => ret tt
      | Some prov_tracer =>
          add_prov prov_tracer (ItemEntity entity) (description self)
                   [ItemSegment segment] ;;;
          add_prov prov_tracer (ItemAttribute norm_attr)
                   (description self) [ItemSegment segment]
      end ;;;
      ret [entity]
  end.

Definition _find_matches_in_segment (self : t) (segment : Segment.t)
  : M (list Entity.t) :=
  let matches := QuickUMLS.match_ (_matcher self) (Segment.text segment) in
  for_yield (entities_of_candidates self segment) matches.

Definition run (self : t) (segments : list Segment.t) : M (list Entity.t) :=
  for_yield (_find_matches_in_segment self) segments.

End Run.

End QuickUMLSMatcher.

(** ** The operation contract, for both matchers *)

Module Operation.

Inductive t : Type :=
  | OfDuckling (self : DucklingMatcher.t)
  | OfQuickUMLS (self : QuickUMLSMatcher.t).

Definition description (op : t) : OperationDescription.t :=
  match op with
  | OfDuckling self => DucklingMatcher.description self
  | OfQuickUMLS self => QuickUMLSMatcher.description self
  end.

(** The provenance sink attached to the operation, if any. *)
Definition prov_sink (op : t) : option ProvBuilder :=
  match op with
  | OfDuckling self => DucklingMatcher._prov_builder self
  | OfQuickUMLS self => QuickUMLSMatcher._prov_tracer self
  end.

(** The label of the normalization attribute the operation creates. *)
Definition norm_label (op : t) : string :=
  match op with
  | OfDuckling self => DucklingMatcher.output_label self
  | OfQuickUMLS _ => "umls"
  end.

Section Run.

Variable extract : extract_fn.
Variable repr : string -> string.
Variable requests_post : string -> list (string * string) -> Response.t.

Definition run (op : t) : list Segment.t -> M (list Entity.t) :=
  match op with
  | OfDuckling self => DucklingMatcher.run extract repr requests_post self
  | OfQuickUMLS self => QuickUMLSMatcher.run extract self
  end.

(** The offsets, in the coordinates of the segment, of the matches
    found in it: every match of the answer of the Duckling server,
    the first candidate of every location of QuickUMLS. *)
Definition match_offsets (op : t) (segment : Segment.t) : list (Z * Z) :=
  match op with
  | OfDuckling self =>
      map (fun m => (DucklingMatch.start m, DucklingMatch.end_ m))
          (Response.json
             (DucklingMatcher.api_result repr requests_post self segment))
  | OfQuickUMLS self =>
      flat_map
        (fun candidates =>
           match candidates with
           | [] => []
           | c :: _ => [(Candidate.start c, Candidate.end_ c)]
           end)
        (QuickUMLS.match_ (QuickUMLSMatcher._matcher self)
                          (Segment.text segment))
  end.

(** The attributes of the source segment that the entity takes over. *)
Definition carried_attrs (op : t) (segment : Segment.t) : list Attribute.t :=
  match op with
  | OfDuckling self =>
      filter (fun a => Attribute.label a ∈ DucklingMatcher.attrs_to_copy self)
             (Segment.attrs segment)
  | OfQuickUMLS self => QuickUMLSMatcher.copied_attrs self segment
  end.

End Run.

(** The node [add_prov(item, description, [segment])] records. *)
Definition prov_node (op : t) (item : DataItem) (segment : Segment.t)
  : ProvNode.t :=
  ProvNode.mk (item_id item) (description op) [Segment.id segment].




End Operation.

(** ** The data of tests/text/test_segmentation.py *)

Module SegmentationTest.

Definition CR : string := String "013"%char EmptyString.
Definition LF : string := String "010"%char EmptyString.

Definition TEXT : string :=
   String.append "Sentence testing the dot. We are testing the carriage return"
  (String.append CR
  (String.append "this is the newline"
  (String.append LF
     " Test interrogation ? Now, testing semicolon;Exclamation! Several punctuation characters?!..."))).

Definition Span_ (start end_ : Z) : AnySpan := Simple (Span.mk start end_).

(** The sentences expected of [SentenceTokenizer(input_label="RAW_TEXT")]. *)
Definition expected_default : list (string * list AnySpan) :=
  [("Sentence testing the dot", [Span_ 0 24]);
   ("We are testing the carriage return", [Span_ 26 60]);
   ("this is the newline", [Span_ 61 80]);
   ("Test interrogation ", [Span_ 82 101]);
   ("Now, testing semicolon", [Span_ 103 125]);
   ("Exclamation", [Span_ 126 137]);
   ("Several punctuation characters", [Span_ 139 169])].

(** The sentences expected of the tokenizer with [keep_punct=True]. *)
Definition expected_keep_punct : list (string * list AnySpan) :=
  [("Sentence testing the dot.", [Span_ 0 25]);
   (String.append "We are testing the carriage return" CR, [Span_ 26 61]);
   (String.append "this is the newline" LF, [Span_ 61 81]);
   ("Test interrogation ?", [Span_ 82 102]);
   ("Now, testing semicolon;", [Span_ 103 126]);
   ("Exclamation!", [Span_ 126 138]);
   ("Several punctuation characters?!...", [Span_ 139 174])].

(** The raw text annotation of the fixture. *)
Definition raw_text : Segment.t :=
  Segment.mk 0%nat "RAW_TEXT" TEXT [Span_ 0 (len TEXT)] [].

(** What the reference text holds at the offsets of the spans, when all
    of them are simple spans. *)
Fixpoint denoted (reference : string) (spans : list AnySpan) : option string :=
  match spans with
  | [] => Some EmptyString
  | Simple s :: rest =>
      option_map (String.append (slice reference (Span.start s) (Span.end_ s)))
                 (denoted reference rest)
  | Modified _ :: _ => None
  end.

(** The expected sentence is the extraction of its range from the raw
    text annotation, and its text is what the document holds there. *)
Definition consistent (extract : extract_fn) (expected : string * list AnySpan)
  : Prop :=
  denoted TEXT (snd expected) = Some (fst expected) /\
  exists start end_,
    snd expected = [Span_ start end_] /\
    extract (Segment.text raw_text) (Segment.spans raw_text) [(start, end_)]
    = Ok expected.

End SegmentationTest.

(** ** A small scenario, to run the definitions on *)

Module Scenario.

(** A world in which the annotations below exist already. *)
Definition world : World.t := World.mk 3%nat [] [] ∅ false ∅.

Definition negation : Attribute.t :=
  Attribute.mk 1%nat "negation" (PyBool false) [].

Definition sentence : Segment.t :=
  Segment.mk 2%nat "SENTENCE" "vu le 3 mars 2020"
             [Simple (Span.mk 40 57)] [negation].

Definition other_sentence : Segment.t :=
  Segment.mk 0%nat "SENTENCE" "sans date" [Simple (Span.mk 0 9)] [].

Definition extract : extract_fn := SpanUtils.extract split_refused.

Definition repr (s : string) : string :=
  String.append "'" (String.append s "'").

Definition date : DucklingMatch.t :=
  DucklingMatch.mk "time" 6 17 (PyStr "2020-03-03T00:00:00.000-08:00").

(** A Duckling server that finds the date of [sentence] and nothing
    elsewhere. *)
Definition requests_post (url : string) (payload : list (string * string))
  : Response.t :=
  if bool_decide (("text", Segment.text sentence) ∈ payload)
  then Response.mk 200 [date]
  else Response.mk 200 [].

Definition requests_get (url : string) : Response.t := Response.mk 200 [].

(** A server that fails on [other_sentence]. *)
Definition requests_post_failing (url : string) (payload : list (string * string))
  : Response.t :=
  if bool_decide (("text", Segment.text other_sentence) ∈ payload)
  then Response.mk 500 []
  else requests_post url payload.

Definition duckling : DucklingMatcher.t :=
  DucklingMatcher.set_prov_builder
    (DucklingMatcher.mk 7%nat "duckling" "0.2.0" "http://localhost:8000"
                        "fr_FR" (Some ["time"]) ["negation"] None)
    ProcessProv.

Definition duckling_all_dims : DucklingMatcher.t :=
  DucklingMatcher.mk 7%nat "duckling" "0.2.0" "http://localhost:8000" "fr_FR"
                     None ["negation"] None.

Definition mars : Candidate.t :=
  Candidate.mk 8 12 "mars" "C0024853" 4607182418800017408 ["T079"].

Definition mars_planet : Candidate.t :=
  Candidate.mk 8 12 "Mars" "C0562484" 4606281698874543309 ["T083"].

Definition quickumls : QuickUMLS.t :=
  QuickUMLS.mk "FRE" true false
    (fun text =>
       if String.eqb text (Segment.text sentence) then [[mars; mars_planet]]
       else []).

Definition quickumls_matcher : QuickUMLSMatcher.t :=
  QuickUMLSMatcher.set_prov_tracer
    (QuickUMLSMatcher.mk 8%nat
       (OperationDescription.mk 8%nat "QuickUMLSMatcher" ∅)
       None "FRE" "2021AB" true false "length"
       4606281698874543309 "jaccard" 5 ["T079"; "T083"] ["negation"] quickumls)
    ProcessProv.

Definition init_args : QuickUMLSMatcher.InitArgs.t :=
  QuickUMLSMatcher.InitArgs.mk "2021AB" "FRE" true false "length"
    4606281698874543309 5 "jaccard" ["T079"; "T083"] None None None.

Definition new_QuickUMLS (path overlapping : string) (threshold window : Z)
           (similarity : string) (accepted_semtypes : list string)
  : Result QuickUMLS.t := Ok quickumls.

(** The entity [duckling] returns for [sentence] in [world]. *)
Definition date_entity : Entity.t :=
  Entity.mk 4%nat "time" "3 mars 2020" [Simple (Span.mk 46 57)]
    [negation;
     Attribute.mk 3%nat "duckling" (PyStr "2020-03-03T00:00:00.000-08:00")
                  [("version", PyStr "0.2.0")]].

(** The entity [quickumls_matcher] returns for [sentence] in [world]. *)
Definition umls_entity : Entity.t :=
  Entity.mk 3%nat "mars" "mars" [Simple (Span.mk 48 52)]
    [negation;
     Attribute.mk 4%nat "umls" (PyStr "C0024853")
                  [("version", PyStr "2021AB");
                   ("score", PyFloat 4607182418800017408);
                   ("sem_types", PyList [PyStr "T079"])]].

End Scenario.

(** ** What an operation leaves behind: definitions for the statements *)

Module Contract.

(** The world has moved on: identifiers were handed out, nodes were
    added at the end of the provenance graph. *)
Definition grows (w w' : World.t) : Prop :=
  (World.next_id w <= World.next_id w')%nat /\
  exists added, World.graph w' = World.graph w ++ added.

(** The node was recorded between the two worlds. *)
Definition recorded_between (w w' : World.t) (n : ProvNode.t) : Prop :=
  exists added, World.graph w' = World.graph w ++ added /\ n ∈ added.

(** The identifier was handed out between the two worlds. *)
Definition created_between (w w' : World.t) (i : Id) : Prop :=
  (World.next_id w <= i < World.next_id w')%nat.

(** The identifier of the last attribute of the entity. *)
Definition norm_id (e : Entity.t) : Id :=
  match last (Entity.attrs e) with
  | Some a => Attribute.id a
  | None => 0%nat
  end.

(** The last attributes of the entities were created one after the
    other, between the two identifiers. *)
Definition ordered_between (lo hi : Id) (l : list Entity.t) : Prop :=
  StronglySorted (fun a b => (norm_id a < norm_id b)%nat) l /\
  Forall (fun e => (lo <= norm_id e < hi)%nat) l.


(** The identifiers of the nodes of the graph are older than the world:
    what [generate_id] hands out next has no node yet. *)
Definition graph_known (w : World.t) : Prop :=
  Forall (fun n => (ProvNode.data_item_id n < World.next_id w)%nat)
         (World.graph w).

(** The recording of the provenance of an entity and of its
    normalization attribute, as both matchers write it. *)
Definition record_provenance (sink : option ProvBuilder)
           (op : OperationDescription.t) (entity : Entity.t)
           (norm_attr : Attribute.t) (segment : Segment.t) : M unit :=
  match sink with
  | None => ret tt
  | Some prov =>
      add_prov prov (ItemEntity entity) op [ItemSegment segment] ;;;
      add_prov prov (ItemAttribute norm_attr) op [ItemSegment segment]
  end.



Section Produced.

Variable extract : extract_fn.
Variable repr : string -> string.
Variable requests_post : string -> list (string * string) -> Response.t.

(** Everything the matchers do for an entity they return: it is
    extracted from a match of the segment, carries the attributes
    taken over from the segment and a new normalization attribute,
    and has its provenance recorded when a sink is attached. *)
Definition produced (op : Operation.t) (segment : Segment.t)
           (w w' : World.t) (e : Entity.t) : Prop :=
  exists range norm_attr,
    range ∈ Operation.match_offsets repr requests_post op segment /\
    extract (Segment.text segment) (Segment.spans segment) [range]
    = Ok (Entity.text e, Entity.spans e) /\
    Entity.attrs e
    = Operation.carried_attrs op segment ++ [norm_attr] /\
    Attribute.label norm_attr = Operation.norm_label op /\
    created_between w w' (Attribute.id norm_attr) /\
    created_between w w' (Entity.id e) /\
    (forall sink, Operation.prov_sink op = Some sink ->
       recorded_between w w' (Operation.prov_node op (ItemEntity e) segment) /\
       recorded_between w w'
         (Operation.prov_node op (ItemAttribute norm_attr) segment)).

(** The provenance of the entity and of its normalization attribute
    was recorded between the two worlds, with the description of the
    operation and, as the only source, the segment the entity was
    extracted from. *)
Definition provenance_recorded (op : Operation.t) (segments : list Segment.t)
           (w w' : World.t) (e : Entity.t) : Prop :=
  exists segment norm_attr,
    segment ∈ segments /\
    (exists range,
        range ∈ Operation.match_offsets repr requests_post op segment /\
        extract (Segment.text segment) (Segment.spans segment) [range]
        = Ok (Entity.text e, Entity.spans e)) /\
    last (Entity.attrs e) = Some norm_attr /\
    Attribute.label norm_attr = Operation.norm_label op /\
    created_between w w' (Attribute.id norm_attr) /\
    recorded_between w w' (Operation.prov_node op (ItemEntity e) segment) /\
    recorded_between w w'
      (Operation.prov_node op (ItemAttribute norm_attr) segment).



End Produced.

End Contract.
Import Contract.

(** The match locations of QuickUMLS, for the statements. *)
Module Locations.
Import QuickUMLSMatcher.

(** The match locations QuickUMLS reports for the segments, each with
    its segment and its candidates, in the order of the report. *)
Definition locations (self : t) (segments : list Segment.t)
  : list (Segment.t * list Candidate.t) :=
  flat_map
    (fun segment =>
       map (pair segment)
           (QuickUMLS.match_ (_matcher self) (Segment.text segment)))
    segments.

(** The entity is the one built from the first candidate of the
    location. *)
Definition built_from_first (extract : extract_fn) (self : t)
           (location : Segment.t * list Candidate.t) (e : Entity.t) : Prop :=
  let segment := fst location in
  match snd location with
  | [] => False
  | first :: _ =>
      extract (Segment.text segment) (Segment.spans segment)
              [(Candidate.start first, Candidate.end_ first)]
      = Ok (Entity.text e, Entity.spans e) /\
      Entity.label e = Candidate.term first /\
      exists id,
        Entity.attrs e =
        copied_attrs self segment ++
        [Attribute.mk id "umls" (PyStr (Candidate.cui first))
           [("version", PyStr (version self));
            ("score", PyFloat (Candidate.similarity first));
            ("sem_types", of_str_list (Candidate.semtypes first))]]
  end.

(** The location has a first candidate, whose offsets can be extracted
    from the segment. *)
Definition extractable (extract : extract_fn)
           (location : Segment.t * list Candidate.t) : Prop :=
  let segment := fst location in
  match snd location with
  | [] => False
  | first :: _ =>
      is_ok (extract (Segment.text segment) (Segment.spans segment)
                     [(Candidate.start first, Candidate.end_ first)]) = true
  end.

(** The matcher whose QuickUMLS reports the first candidate of every
    location and no other. *)
Definition first_only (self : t) : t :=
  mk (uid self) (description self) (_prov_tracer self) (language self)
     (version self) (lowercase self) (normalize_unicode self)
     (overlapping self) (threshold self) (similarity self) (window self)
     (accepted_semtypes self) (attrs_to_copy self)
     (QuickUMLS.mk (QuickUMLS.language_flag (_matcher self))
                   (QuickUMLS.to_lowercase_flag (_matcher self))
                   (QuickUMLS.normalize_unicode_flag (_matcher self))
                   (fun text => map (take 1)
                                    (QuickUMLS.match_ (_matcher self) text))).
End Locations.
Import Locations.

(** ** Further definitions for the statements *)

(** The matches of a DucklingMatcher. *)
Module Matches.
Import DucklingMatcher.

Section Matches.
Variable repr : string -> string.
Variable requests_post : string -> list (string * string) -> Response.t.

(** The matches of the answers of the server for the segments, each with
    its segment, in the order of the answers. *)
Definition answers (self : t) (segments : list Segment.t)
  : list (Segment.t * DucklingMatch.t) :=
  flat_map
    (fun segment =>
       map (pair segment)
           (Response.json (api_result repr requests_post self segment)))
    segments.

(** The dimension of the match is one of those the matcher asks for. *)
Definition requested (self : t) (m : DucklingMatch.t) : bool :=
  match dims self with
  | Some self_dims => bool_decide (DucklingMatch.dim m ∈ self_dims)
  | None => false
  end.

(** The matches that are of a requested dimension, and the others. *)
Definition kept (self : t) (segments : list Segment.t)
  : list (Segment.t * DucklingMatch.t) :=
  List.filter (fun found => requested self (snd found)) (answers self segments).

Definition skipped (self : t) (segments : list Segment.t)
  : list (Segment.t * DucklingMatch.t) :=
  List.filter (fun found => negb (requested self (snd found)))
              (answers self segments).

End Matches.

(** The entity is the one built from the match. *)
Definition built_from_match (extract : extract_fn) (self : t)
           (found : Segment.t * DucklingMatch.t) (e : Entity.t) : Prop :=
  let segment := fst found in
  let m := snd found in
  extract (Segment.text segment) (Segment.spans segment)
          [(DucklingMatch.start m, DucklingMatch.end_ m)]
  = Ok (Entity.text e, Entity.spans e) /\
  Entity.label e = DucklingMatch.dim m /\
  exists id,
    Entity.attrs e =
    filter (fun a => Attribute.label a ∈ attrs_to_copy self)
           (Segment.attrs segment) ++
    [Attribute.mk id (output_label self) (DucklingMatch.value m)
                  [("version", PyStr (version self))]].


End Matches.
Import Matches.

(** What a run may change in the world: it hands out identifiers and
    appends to the warnings and to the provenance graph, to the latter only
    with a provenance sink; the registry of installs and the language map
    stay as they are. *)
Definition footprint (sink : option ProvBuilder) (w w' : World.t) : Prop :=
  World._install_paths w' = World._install_paths w /\
  World._spacy_language_map_fixed w' = World._spacy_language_map_fixed w /\
  World.SPACY_LANGUAGE_MAP w' = World.SPACY_LANGUAGE_MAP w /\
  (World.next_id w <= World.next_id w')%nat /\
  (exists added, World.graph w' = World.graph w ++ added /\
                 (sink = None -> added = [])) /\
  (exists issued, World.warnings w' = World.warnings w ++ issued).

(** The identifiers a matcher draws for an entity, in the order in which
    it draws them. *)
Definition created_ids (op : Operation.t) (e : Entity.t) : list Id :=
  match op with
  | Operation.OfDuckling _ => [norm_id e; Entity.id e]
  | Operation.OfQuickUMLS _ => [Entity.id e; norm_id e]
  end.

(** The identifiers under which a run records provenance for the
    entities it returns: for each entity its own and that of its
    normalization attribute, in this order, and nothing without a
    provenance sink. *)
Definition recorded_ids (op : Operation.t) (ents : list Entity.t) : list Id :=
  match Operation.prov_sink op with
  | None => []
  | Some _ => flat_map (fun e => [Entity.id e; norm_id e]) ents
  end.

(** The node was recorded by the operation, with one of the segments as
    its only source. *)
Definition recorded_by (op : Operation.t) (segments : list Segment.t)
           (n : ProvNode.t) : Prop :=
  ProvNode.operation n = Operation.description op /\
  exists segment,
    segment ∈ segments /\ ProvNode.source_ids n = [Segment.id segment].


(** The warnings a run issues when it returns: one for each match that
    a DucklingMatcher skips, none for a QuickUMLSMatcher. *)
Definition issued (repr : string -> string)
           (requests_post : string -> list (string * string) -> Response.t)
           (op : Operation.t) (segments : list Segment.t) : list string :=
  match op with
  | Operation.OfDuckling self =>
      map (fun _ => "Dims are not properly filtered by duckling API call")
          (skipped repr requests_post self segments)
  | Operation.OfQuickUMLS _ => []
  end.

(** The causes of a failure of [run]. *)
Module Failures.
Section Failures.
Variable extract : extract_fn.
Variable repr : string -> string.
Variable requests_post : string -> list (string * string) -> Response.t.



End Failures.
End Failures.
Import Failures.

(** Strings between quotes, for the encoding of the dimensions. *)
Module Quoting.

(** The character occurs in the string. *)
Fixpoint occurs (c : ascii) (s : string) : bool :=
  match s with
  | EmptyString => false
  | String c' rest => Ascii.eqb c' c || occurs c rest
  end.

(** The string between single quotes, as [repr] writes a string that
    holds no single quote, no backslash and no unprintable character. *)
Definition single_quoted (s : string) : string :=
  String "'"%char (String.append s "'").

(** The string between double quotes (character 34). *)
Definition double_quoted (s : string) : string :=
  String "034"%char (String.append s (String "034"%char EmptyString)).

(** The list written as Python writes it, with the strings between
    double quotes. *)
Definition double_quoted_list (l : list string) : string :=
  String.append "[" (String.append (join_comma (map double_quoted l)) "]").

End Quoting.
Import Quoting.

(** The name of the spaCy model for a language code, as the workaround
    for quickumls before 1.4.1 writes it. *)
Definition spacy_model (value : string) : string :=
  String.append value (if String.eqb value "en" then "_core_web_sm"
                       else "_core_news_sm").

(** The four settings that identify the install the arguments ask for. *)
Definition install_of (init_args : QuickUMLSMatcher.InitArgs.t)
  : _QuickUMLSInstall :=
  (QuickUMLSMatcher.InitArgs.version init_args,
   QuickUMLSMatcher.InitArgs.language init_args,
   QuickUMLSMatcher.InitArgs.lowercase init_args,
   QuickUMLSMatcher.InitArgs.normalize_unicode init_args).

(** The flags of the QuickUMLS object are those of the settings. *)
Definition consistent_flags (q : QuickUMLS.t) (install : _QuickUMLSInstall)
  : Prop :=
  QuickUMLS.language_flag q = install.1.1.2 /\
  QuickUMLS.to_lowercase_flag q = install.1.2 /\
  QuickUMLS.normalize_unicode_flag q = install.2.

(** The QuickUMLS object the constructor asks for, for a path. *)
Definition quickumls_for
           (new_QuickUMLS : string -> string -> Z -> Z -> string -> list string
                            -> Result QuickUMLS.t)
           (init_args : QuickUMLSMatcher.InitArgs.t) (path : string)
  : Result QuickUMLS.t :=
  new_QuickUMLS path
                (QuickUMLSMatcher.InitArgs.overlapping init_args)
                (QuickUMLSMatcher.InitArgs.threshold init_args)
                (QuickUMLSMatcher.InitArgs.window init_args)
                (QuickUMLSMatcher.InitArgs.similarity init_args)
                (QuickUMLSMatcher.InitArgs.accepted_semtypes init_args).

(** The world after the first two steps of the constructor of a
    QuickUMLSMatcher: the workaround for the language map and the
    constructor of the parent class. *)
Definition started (quickumls_before_1_4_1 : bool)
           (init_args : QuickUMLSMatcher.InitArgs.t) (w : World.t) : World.t :=
  let w1 :=
    snd (QuickUMLSMatcher._fix_spacy_language_map quickumls_before_1_4_1 w) in
  match QuickUMLSMatcher.InitArgs.uid init_args with
  | None => World.set_next_id (S (World.next_id w1)) w1
  | Some _ => w1
  end.

(** ** More cases, to run the definitions on *)

Module Cases.

(** A matcher that asks for durations only: the date of the sentence is
    not of its dimensions. *)
Definition duckling_durations : DucklingMatcher.t :=
  DucklingMatcher.mk 7%nat "duckling" "0.2.0" "http://localhost:8000" "fr_FR"
                     (Some ["duration"]) [] None.

(** A world with a french lowercase install in the registry. *)
Definition installed : World.t :=
  snd (QuickUMLSMatcher.add_install (PathStr "/opt/quickumls/fre") "2021AB"
                                    "FRE" true false Scenario.world).

(** The arguments of a matcher for an english install, and a world in
    which one is registered. *)
Definition english_args : QuickUMLSMatcher.InitArgs.t :=
  QuickUMLSMatcher.InitArgs.mk "2021AB" "ENG" false false "length"
    4606281698874543309 5 "jaccard" ["T079"; "T083"] None None None.

Definition english_installed : World.t :=
  snd (QuickUMLSMatcher.add_install (PathStr "/opt/quickumls/eng") "2021AB"
                                    "ENG" false false Scenario.world).

(** A description that leaves the defaults to the constructor. *)
Definition short_description : OperationDescription.t :=
  OperationDescription.mk 9%nat "DucklingMatcher"
    (list_to_map [("output_label", PyStr "duckling");
                  ("version", PyStr "0.2.0")]).

(** A world with a language map that was not fixed yet. *)
Definition unfixed : World.t :=
  World.mk 3%nat [] [] ∅ false (list_to_map [("ENG", "en"); ("FRE", "fr")]).

End Cases.

(** * Proofs *)

(** ** Computations *)

Lemma bind_Ok_inv {A B} (c : M A) (k : A -> M B) w b w' :
  bind c k w = (Ok b, w') ->
  exists a w1, c w = (Ok a, w1) /\ k a w1 = (Ok b, w').
Proof.
  unfold bind. destruct (c w) as [[a|e] w1]; [eauto | discriminate].
Qed.

Lemma bind_Ok {A B} (c : M A) (k : A -> M B) w a w1 :
  c w = (Ok a, w1) -> bind c k w = k a w1.
Proof. unfold bind. intros ->. reflexivity. Qed.

Lemma bind_Raise {A B} (c : M A) (k : A -> M B) w e w1 :
  c w = (Raise e, w1) -> bind c k w = (Raise e, w1).
Proof. unfold bind. intros ->. reflexivity. Qed.

Lemma for_yield_cons_inv {A B} (body : A -> M (list B)) x rest w bs w' :
  for_yield body (x :: rest) w = (Ok bs, w') ->
  exists ys w1 more,
    body x w = (Ok ys, w1) /\
    for_yield body rest w1 = (Ok more, w') /\
    bs = ys ++ more.
Proof.
  cbn [for_yield]. intros H.
  apply bind_Ok_inv in H as (ys & w1 & Hbody & H).
  apply bind_Ok_inv in H as (more & w2 & Hrest & H).
  unfold ret in H. injection H as <- <-. eauto 6.
Qed.

Lemma for_yield_app_Ok {A B} (body : A -> M (list B)) xs1 xs2 w ys w1 :
  for_yield body xs1 w = (Ok ys, w1) ->
  for_yield body (xs1 ++ xs2) w =
  bind (for_yield body xs2) (fun more => ret (ys ++ more)) w1.
Proof.
  revert w ys. induction xs1 as [|x xs1 IH]; intros w ys H.
  - cbn in H. injection H as <- <-. cbn [app].
    unfold bind. destruct (for_yield body xs2 w) as [[more|e] w2]; reflexivity.
  - apply for_yield_cons_inv in H as (y1 & wa & y2 & Hx & Hrest & ->).
    cbn [app for_yield]. rewrite (bind_Ok _ _ _ _ _ Hx).
    unfold bind at 1. rewrite (IH _ _ Hrest).
    unfold bind. destruct (for_yield body xs2 w1) as [[more|e] w2]; cbn.
    + by rewrite app_assoc.
    + reflexivity.
Qed.

(** A failing iteration fails the loop, whatever was yielded before. *)
Lemma for_yield_Raise_at {A B} (body : A -> M (list B)) xs1 x xs2 w ys w1 e w2 :
  for_yield body xs1 w = (Ok ys, w1) ->
  body x w1 = (Raise e, w2) ->
  for_yield body (xs1 ++ x :: xs2) w = (Raise e, w2).
Proof.
  intros H1 Hx. rewrite (for_yield_app_Ok _ _ _ _ _ _ H1).
  unfold bind. cbn [for_yield]. by rewrite (bind_Raise _ _ _ _ _ Hx).
Qed.

Lemma grows_refl w : grows w w.
Proof. split; [lia | exists []; by rewrite app_nil_r]. Qed.

Lemma grows_trans w1 w2 w3 : grows w1 w2 -> grows w2 w3 -> grows w1 w3.
Proof.
  intros [H1 [a1 E1]] [H2 [a2 E2]]. split; [lia|].
  exists (a1 ++ a2). by rewrite E2, E1, app_assoc.
Qed.

Lemma recorded_between_mono w0 w w1 w2 n :
  grows w0 w -> recorded_between w w1 n -> grows w1 w2 ->
  recorded_between w0 w2 n.
Proof.
  intros [_ [a0 E0]] [a [E Hn]] [_ [a2 E2]].
  exists (a0 ++ a ++ a2). split.
  - by rewrite E2, E, E0, <- !app_assoc.
  - set_solver.
Qed.

Lemma created_between_mono w0 w w1 w2 i :
  grows w0 w -> created_between w w1 i -> grows w1 w2 ->
  created_between w0 w2 i.
Proof. intros [H0 _] H [H2 _]. unfold created_between in *. lia. Qed.

(** ** The primitives *)

Lemma new_Attribute_eq label value metadata w :
  new_Attribute label value metadata w =
  (Ok (Attribute.mk (World.next_id w) label value metadata),
   World.set_next_id (S (World.next_id w)) w).
Proof. reflexivity. Qed.

Lemma new_Entity_eq label text spans attrs w :
  new_Entity label text spans attrs w =
  (Ok (Entity.mk (World.next_id w) label text spans attrs),
   World.set_next_id (S (World.next_id w)) w).
Proof. reflexivity. Qed.

Lemma add_prov_Ok_inv pb item op sources w u w' :
  add_prov pb item op sources w = (Ok u, w') ->
  get_node (World.graph w) (item_id item) = None /\
  w' = World.set_graph
         (World.graph w ++ [ProvNode.mk (item_id item) op (map item_id sources)]) w.
Proof.
  unfold add_prov. destruct (get_node _ _); [discriminate|].
  intros H. injection H as _ <-. done.
Qed.

Lemma record_provenance_Ok_inv sink op entity norm_attr segment w u w' :
  record_provenance sink op entity norm_attr segment w = (Ok u, w') ->
  World.next_id w' = World.next_id w /\
  exists added,
    World.graph w' = World.graph w ++ added /\
    (forall prov, sink = Some prov ->
       ProvNode.mk (Entity.id entity) op [Segment.id segment] ∈ added /\
       ProvNode.mk (Attribute.id norm_attr) op [Segment.id segment] ∈ added).
Proof.
  unfold record_provenance. destruct sink as [prov|].
  - intros H. apply bind_Ok_inv in H as ([] & w1 & H1 & H2).
    apply add_prov_Ok_inv in H1 as [_ ->].
    apply add_prov_Ok_inv in H2 as [_ ->].
    split; [reflexivity|]. eexists. split.
    + cbn. rewrite <- app_assoc. reflexivity.
    + intros _ _. cbn. set_solver.
  - intros H. injection H as _ <-. split; [reflexivity|].
    exists []. split; [by rewrite app_nil_r | discriminate].
Qed.

Section DucklingSteps.

Variable extract : extract_fn.
Variable repr : string -> string.
Variable requests_post : string -> list (string * string) -> Response.t.

Import DucklingMatcher.

(** What an iteration over a match does when it does not fail: it skips
    the match, or builds one entity. *)
Lemma entities_of_match_Ok_inv self segment match_ w ys w1 :
  entities_of_match extract self segment match_ w = (Ok ys, w1) ->
  exists self_dims,
    dims self = Some self_dims /\
    (((DucklingMatch.dim match_ ∉ self_dims) /\ ys = [] /\
      World.next_id w1 = World.next_id w /\ World.graph w1 = World.graph w)
     \/
     (DucklingMatch.dim match_ ∈ self_dims /\
      exists text spans added,
        extract (Segment.text segment) (Segment.spans segment)
                [(DucklingMatch.start match_, DucklingMatch.end_ match_)]
        = Ok (text, spans) /\
        let norm_attr :=
          Attribute.mk (World.next_id w) (output_label self)
                       (DucklingMatch.value match_)
                       [("version", PyStr (version self))] in
        let entity :=
          Entity.mk (S (World.next_id w)) (DucklingMatch.dim match_) text spans
            (filter (fun a => Attribute.label a ∈ attrs_to_copy self)
                    (Segment.attrs segment) ++ [norm_attr]) in
        ys = [entity] /\
        World.next_id w1 = S (S (World.next_id w)) /\
        World.graph w1 = World.graph w ++ added /\
        (forall prov, _prov_builder self = Some prov ->
           ProvNode.mk (Entity.id entity) (description self) [Segment.id segment]
             ∈ added /\
           ProvNode.mk (Attribute.id norm_attr) (description self)
                       [Segment.id segment] ∈ added))).
Proof.
  unfold entities_of_match. destruct (dims self) as [self_dims|]; [|discriminate].
  intros H. exists self_dims. split; [reflexivity|].
  case_bool_decide as Hdim; cbn [negb] in H.
  - right. split; [exact Hdim|].
    apply bind_Ok_inv in H as ([text spans] & w2 & Hex & H).
    unfold lift in Hex. injection Hex as Hex <-.
    rewrite bind_Ok with (1 := new_Attribute_eq _ _ _ _) in H.
    rewrite bind_Ok with (1 := new_Entity_eq _ _ _ _ _) in H.
    apply bind_Ok_inv in H as (u & w3 & Hprov & H).
    injection H as <- <-.
    apply record_provenance_Ok_inv in Hprov as (Hid & added & Hgraph & Hnodes).
    exists text, spans, added. cbn in *. split_and!; try done.
  - left. split; [exact Hdim|].
    apply bind_Ok_inv in H as (u & w2 & Hwarn & H).
    injection Hwarn as _ <-. injection H as <- <-. done.
Qed.

End DucklingSteps.

Lemma fold_add_attr_attrs l e :
  Entity.attrs (fold_left Entity.add_attr l e) = Entity.attrs e ++ l.
Proof.
  revert e. induction l as [|a l IH]; intros e; cbn.
  - by rewrite app_nil_r.
  - rewrite IH. cbn. by rewrite <- app_assoc.
Qed.

Lemma fold_add_attr_fields l e :
  Entity.id (fold_left Entity.add_attr l e) = Entity.id e /\
  Entity.label (fold_left Entity.add_attr l e) = Entity.label e /\
  Entity.text (fold_left Entity.add_attr l e) = Entity.text e /\
  Entity.spans (fold_left Entity.add_attr l e) = Entity.spans e.
Proof.
  revert e. induction l as [|a l IH]; intros e; cbn; [done|].
  destruct (IH (Entity.add_attr e a)) as (-> & -> & -> & ->). done.
Qed.

Section QuickUMLSSteps.

Variable extract : extract_fn.

Import QuickUMLSMatcher.

(** What an iteration over a match location does when it does not fail:
    one entity, built from the first candidate. *)
Lemma entities_of_candidates_Ok_inv self segment match_candidates w ys w1 :
  entities_of_candidates extract self segment match_candidates w = (Ok ys, w1) ->
  exists match_ others text spans added,
    match_candidates = match_ :: others /\
    extract (Segment.text segment) (Segment.spans segment)
            [(Candidate.start match_, Candidate.end_ match_)]
    = Ok (text, spans) /\
    let norm_attr :=
      Attribute.mk (S (World.next_id w)) "umls" (PyStr (Candidate.cui match_))
        [("version", PyStr (version self));
         ("score", PyFloat (Candidate.similarity match_));
         ("sem_types", of_str_list (Candidate.semtypes match_))] in
    let entity :=
      Entity.mk (World.next_id w) (Candidate.term match_) text spans
                (copied_attrs self segment ++ [norm_attr]) in
    ys = [entity] /\
    World.next_id w1 = S (S (World.next_id w)) /\
    World.graph w1 = World.graph w ++ added /\
    (forall prov, _prov_tracer self = Some prov ->
       ProvNode.mk (Entity.id entity) (description self) [Segment.id segment]
         ∈ added /\
       ProvNode.mk (Attribute.id norm_attr) (description self)
                   [Segment.id segment] ∈ added).
Proof.
  unfold entities_of_candidates.
  destruct match_candidates as [|match_ others]; [discriminate|].
  intros H. exists match_, others.
  apply bind_Ok_inv in H as ([text spans] & w2 & Hex & H).
  unfold lift in Hex. injection Hex as Hex <-.
  rewrite bind_Ok with (1 := new_Entity_eq _ _ _ _ _) in H.
  rewrite bind_Ok with (1 := new_Attribute_eq _ _ _ _) in H.
  apply bind_Ok_inv in H as (u & w3 & Hprov & H).
  injection H as <- <-.
  apply record_provenance_Ok_inv in Hprov as (Hid & added & Hgraph & Hnodes).
  exists text, spans, added.
  destruct (fold_add_attr_fields (copied_attrs self segment)
              (Entity.mk (World.next_id w) (Candidate.term match_) text spans []))
    as (Ei & El & Et & Es).
  pose proof (fold_add_attr_attrs (copied_attrs self segment)
              (Entity.mk (World.next_id w) (Candidate.term match_) text spans []))
    as Ea.
  cbv zeta. split_and!; try done.
  - unfold Entity.add_attr at 1. rewrite Ei, El, Et, Es, Ea. reflexivity.
  - intros prov Hp. destruct (Hnodes prov Hp) as [Hn1 Hn2].
    unfold Entity.add_attr in Hn1 at 1. cbn [Entity.id] in Hn1.
    rewrite (proj1 (fold_add_attr_fields _ _)) in Hn1. done.
Qed.

End QuickUMLSSteps.

Lemma ordered_between_nil lo hi : ordered_between lo hi [].
Proof. split; constructor. Qed.

Lemma ordered_between_app lo mid hi l1 l2 :
  (lo <= mid <= hi)%nat ->
  ordered_between lo mid l1 -> ordered_between mid hi l2 ->
  ordered_between lo hi (l1 ++ l2).
Proof.
  intros Hm [S1 F1] [S2 F2]. split.
  - apply StronglySorted_app_2; [|done..].
    intros x1 x2 H1 H2.
    rewrite Forall_forall in F1, F2.
    specialize (F1 x1 H1). specialize (F2 x2 H2). lia.
  - apply Forall_app. split.
    + eapply Forall_impl; [exact F1|]. intros; cbn in *; lia.
    + eapply Forall_impl; [exact F2|]. intros; cbn in *; lia.
Qed.


(** What holds of the entities of every iteration holds of all the
    entities of the loop, provided it survives the growth of the world
    around it; and their normalization attributes come in the order of
    their creation. *)
Lemma for_yield_entities {A} (body : A -> M (list Entity.t))
      (Q : World.t -> World.t -> Entity.t -> Prop) xs :
  (forall w0 w w1 w2 e, grows w0 w -> Q w w1 e -> grows w1 w2 -> Q w0 w2 e) ->
  (forall x w ys w1,
      x ∈ xs -> body x w = (Ok ys, w1) ->
      grows w w1 /\ Forall (Q w w1) ys /\
      ordered_between (World.next_id w) (World.next_id w1) ys) ->
  forall w bs w',
    for_yield body xs w = (Ok bs, w') ->
    grows w w' /\ Forall (Q w w') bs /\
    ordered_between (World.next_id w) (World.next_id w') bs.
Proof.
  intros Hmono. induction xs as [|x xs IH]; intros Hbody w bs w' H.
  - cbn in H. injection H as <- <-.
    split_and!; [apply grows_refl | constructor | apply ordered_between_nil].
  - apply for_yield_cons_inv in H as (ys & w1 & more & Hx & Hrest & ->).
    destruct (Hbody x w ys w1) as (G1 & Q1 & O1); [left | done |].
    destruct (IH (fun x' w0 ys' w0' Hin =>
                    Hbody x' w0 ys' w0' (list_elem_of_further _ _ _ Hin))
                 w1 more w' Hrest) as (G2 & Q2 & O2).
    split_and!.
    + by eapply grows_trans.
    + apply Forall_app. split.
      * eapply Forall_impl; [exact Q1|]. intros e He.
        eapply Hmono; [apply grows_refl | exact He | exact G2].
      * eapply Forall_impl; [exact Q2|]. intros e He.
        eapply Hmono; [exact G1 | exact He | apply grows_refl].
    + destruct G1 as [L1 _], G2 as [L2 _].
      eapply ordered_between_app; [|exact O1|exact O2]. lia.
Qed.

Section Produced.

Variable extract : extract_fn.
Variable repr : string -> string.
Variable requests_post : string -> list (string * string) -> Response.t.

Lemma produced_mono op segment w0 w w1 w2 e :
  grows w0 w -> produced extract repr requests_post op segment w w1 e -> grows w1 w2 ->
  produced extract repr requests_post op segment w0 w2 e.
Proof.
  intros G0 (range & norm_attr & Hr & Hex & Ha & Hl & Hn & He & Hp) G2.
  exists range, norm_attr. split_and!; try done.
  - by eapply created_between_mono.
  - by eapply created_between_mono.
  - intros sink Hs. destruct (Hp sink Hs) as [P1 P2].
    split; by eapply recorded_between_mono.
Qed.

Lemma norm_id_snoc id label text spans attrs norm_attr :
  norm_id (Entity.mk id label text spans (attrs ++ [norm_attr]))
  = Attribute.id norm_attr.
Proof. unfold norm_id. cbn. by rewrite last_snoc. Qed.

(** One iteration of the loops over the matches of a segment. *)
Lemma duckling_step self segment match_ w ys w1 :
  match_ ∈ Response.json
             (DucklingMatcher.api_result repr requests_post self segment) ->
  DucklingMatcher.entities_of_match extract self segment match_ w = (Ok ys, w1) ->
  grows w w1 /\
  Forall (produced extract repr requests_post (Operation.OfDuckling self) segment w w1) ys /\
  ordered_between (World.next_id w) (World.next_id w1) ys.
Proof.
  intros Hin H.
  apply entities_of_match_Ok_inv in H
    as (self_dims & Hdims & [(Hnot & -> & Hid & Hg)
                            |(Hdim & text & spans & added & Hex & H)]).
  - split_and!.
    + split; [lia | exists []; by rewrite app_nil_r].
    + constructor.
    + apply ordered_between_nil.
  - cbv zeta in H. destruct H as (-> & Hid & Hg & Hprov). split_and!.
    + split; [lia | by exists added].
    + constructor; [|constructor].
      eexists (_, _), _. split_and!.
      * cbn. apply list_elem_of_In, in_map_iff. exists match_.
        split; [reflexivity | by apply list_elem_of_In].
      * exact Hex.
      * reflexivity.
      * reflexivity.
      * unfold created_between. cbn. lia.
      * unfold created_between. cbn. lia.
      * intros sink Hs. destruct (Hprov sink Hs) as [P1 P2].
        split; by exists added.
    + split.
      * repeat constructor.
      * constructor; [|constructor]. rewrite norm_id_snoc. cbn. lia.
Qed.

Lemma quickumls_step self segment candidates w ys w1 :
  candidates ∈ QuickUMLS.match_ (QuickUMLSMatcher._matcher self)
                                (Segment.text segment) ->
  QuickUMLSMatcher.entities_of_candidates extract self segment candidates w
  = (Ok ys, w1) ->
  grows w w1 /\
  Forall (produced extract repr requests_post (Operation.OfQuickUMLS self) segment w w1) ys /\
  ordered_between (World.next_id w) (World.next_id w1) ys.
Proof.
  intros Hin H.
  apply entities_of_candidates_Ok_inv in H
    as (match_ & others & text & spans & added & -> & Hex & H).
  cbv zeta in H. destruct H as (-> & Hid & Hg & Hprov). split_and!.
  - split; [lia | by exists added].
  - constructor; [|constructor].
    eexists (_, _), _. split_and!.
    + cbn. apply list_elem_of_In, in_flat_map. exists (match_ :: others).
      split; [by apply list_elem_of_In | by left].
    + exact Hex.
    + reflexivity.
    + reflexivity.
    + unfold created_between. cbn. lia.
    + unfold created_between. cbn. lia.
    + intros sink Hs. destruct (Hprov sink Hs) as [P1 P2].
      split; by exists added.
  - split.
    + repeat constructor.
    + constructor; [|constructor]. rewrite norm_id_snoc. cbn. lia.
Qed.

(** One iteration of the loops over the segments. *)
Lemma segment_step op segment w ys w1 :
  Operation.run extract repr requests_post op [segment] w = (Ok ys, w1) ->
  grows w w1 /\
  Forall (produced extract repr requests_post op segment w w1) ys /\
  ordered_between (World.next_id w) (World.next_id w1) ys.
Proof.
  intros H.
  assert (exists ys0 w0,
             match op with
             | Operation.OfDuckling self =>
                 DucklingMatcher._find_matches_in_segment
                   extract repr requests_post self
             | Operation.OfQuickUMLS self =>
                 QuickUMLSMatcher._find_matches_in_segment extract self
             end segment w = (Ok ys0, w0) /\ ys = ys0 /\ w1 = w0)
    as (ys0 & w0 & Hseg & -> & ->).
  { destruct op; apply for_yield_cons_inv in H
      as (ys0 & w0 & more & Hseg & Hnil & ->);
      cbn in Hnil; injection Hnil as <- <-; rewrite app_nil_r; eauto. }
  destruct op as [self|self].
  - unfold DucklingMatcher._find_matches_in_segment in Hseg.
    destruct (negb _); [discriminate|].
    eapply for_yield_entities; [| |exact Hseg].
    + intros ?. apply produced_mono.
    + apply duckling_step.
  - unfold QuickUMLSMatcher._find_matches_in_segment in Hseg.
    eapply for_yield_entities; [| |exact Hseg].
    + intros ?. apply produced_mono.
    + apply quickumls_step.
Qed.

Lemma run_unfold op segments w :
  Operation.run extract repr requests_post op segments w
  = for_yield (fun segment =>
                 Operation.run extract repr requests_post op [segment])
              segments w.
Proof.
  assert (forall (body : Segment.t -> M (list Entity.t)) w,
             for_yield body segments w
             = for_yield (fun s => for_yield body [s]) segments w) as E.
  { intros body. induction segments as [|s l IH]; intros w0; [reflexivity|].
    cbn [for_yield]. unfold bind, ret.
    destruct (body s w0) as [[ys|e] w1]; [|reflexivity].
    rewrite app_nil_r, IH. reflexivity. }
  destruct op; apply E.
Qed.

(** Every entity that [run] returns was produced from one of the
    segments, and the world has only grown. *)
Lemma run_produces op segments w ents w' :
  Operation.run extract repr requests_post op segments w = (Ok ents, w') ->
  grows w w' /\
  Forall (fun e => exists segment,
              segment ∈ segments /\
              produced extract repr requests_post op segment w w' e) ents /\
  ordered_between (World.next_id w) (World.next_id w') ents.
Proof.
  rewrite run_unfold. intros H.
  eapply for_yield_entities
    with (Q := fun w0 w1 e =>
                 exists segment,
                   segment ∈ segments /\
                   produced extract repr requests_post op segment w0 w1 e);
    [| |exact H].
  - intros w0 w1 w2 w3 e G0 (segment & Hin & He) G2.
    exists segment. split; [exact Hin|]. by eapply produced_mono.
  - intros segment w0 ys w1 Hin Hseg.
    destruct (segment_step op segment w0 ys w1 Hseg) as (G & P & O).
    split_and!; [exact G | | exact O].
    eapply Forall_impl; [exact P|]. intros e He. by exists segment.
Qed.

End Produced.

Lemma for_yield_Forall2 {A B C} (body : A -> M (list B)) (g : A -> list C)
      (R : C -> B -> Prop) xs :
  (forall x w ys w1, body x w = (Ok ys, w1) -> Forall2 R (g x) ys) ->
  forall w bs w',
    for_yield body xs w = (Ok bs, w') -> Forall2 R (flat_map g xs) bs.
Proof.
  intros Hbody. induction xs as [|x xs IH]; intros w bs w' H.
  - cbn in H. injection H as <- <-. constructor.
  - apply for_yield_cons_inv in H as (ys & w1 & more & Hx & Hrest & ->).
    cbn [flat_map]. apply Forall2_app; eauto.
Qed.

Lemma for_yield_ext {A B} (body1 body2 : A -> M (list B)) xs w :
  (forall x w0, body1 x w0 = body2 x w0) ->
  for_yield body1 xs w = for_yield body2 xs w.
Proof.
  intros E. revert w. induction xs as [|x xs IH]; intros w; [reflexivity|].
  cbn [for_yield]. unfold bind. rewrite E.
  destruct (body2 x w) as [[ys|e] w1]; [|reflexivity]. by rewrite IH.
Qed.

Lemma for_yield_map {A A' B} (f : A -> A') (body : A' -> M (list B)) xs w :
  for_yield body (map f xs) w = for_yield (fun x => body (f x)) xs w.
Proof.
  revert w. induction xs as [|x xs IH]; intros w; [reflexivity|].
  cbn [map for_yield]. unfold bind.
  destruct (body (f x) w) as [[ys|e] w1]; [|reflexivity]. by rewrite IH.
Qed.

Lemma for_yield_total {A B} (body : A -> M (list B)) (P : World.t -> Prop)
      (ok : A -> Prop) xs :
  (forall x w, ok x -> P w -> exists ys w1, body x w = (Ok ys, w1) /\ P w1) ->
  Forall ok xs ->
  forall w, P w -> exists bs w', for_yield body xs w = (Ok bs, w') /\ P w'.
Proof.
  intros Hbody Hok. induction Hok as [|x xs Hx _ IH]; intros w Hw.
  - by exists [], w.
  - destruct (Hbody x w Hx Hw) as (ys & w1 & E1 & P1).
    destruct (IH w1 P1) as (more & w2 & E2 & P2).
    exists (ys ++ more), w2. split; [|done].
    cbn [for_yield]. rewrite (bind_Ok _ _ _ _ _ E1), (bind_Ok _ _ _ _ _ E2).
    reflexivity.
Qed.

Lemma get_node_unknown g i k :
  Forall (fun n => (ProvNode.data_item_id n < k)%nat) g ->
  (k <= i)%nat ->
  get_node g i = None.
Proof.
  intros Hg Hk. unfold get_node.
  induction Hg as [|n g Hn _ IH]; [reflexivity|]. cbn.
  destruct (Nat.eqb_spec (ProvNode.data_item_id n) i); [lia | exact IH].
Qed.

Lemma record_provenance_total sink op entity norm_attr segment w k :
  Forall (fun n => (ProvNode.data_item_id n < k)%nat) (World.graph w) ->
  (k <= Entity.id entity)%nat ->
  (Entity.id entity < Attribute.id norm_attr)%nat ->
  exists w1,
    record_provenance sink op entity norm_attr segment w = (Ok tt, w1) /\
    World.next_id w1 = World.next_id w /\
    Forall (fun n => (ProvNode.data_item_id n < S (Attribute.id norm_attr))%nat)
           (World.graph w1).
Proof.
  intros Hg He Hn. unfold record_provenance. destruct sink as [prov|].
  - unfold bind, add_prov. cbn [item_id].
    rewrite (get_node_unknown _ _ k) by done.
    cbn [World.graph World.set_graph].
    rewrite (get_node_unknown _ _ (S (Entity.id entity))).
    + eexists. split; [reflexivity|]. split; [reflexivity|].
      cbn. rewrite !Forall_app. split_and!.
      * eapply Forall_impl; [exact Hg|]. intros; cbn in *; lia.
      * repeat constructor. cbn. lia.
      * repeat constructor.
    + apply Forall_app. split.
      * eapply Forall_impl; [exact Hg|]. intros; cbn in *; lia.
      * repeat constructor.
    + lia.
  - exists w. split; [reflexivity|]. split; [reflexivity|].
    eapply Forall_impl; [exact Hg|]. intros; cbn in *; lia.
Qed.


(** An iteration that fails in every world fails the loop, wherever it
    stands in it. *)
Lemma for_yield_never_Ok {A B} (body : A -> M (list B)) xs1 x xs2 w :
  (forall w0, is_ok (fst (body x w0)) = false) ->
  is_ok (fst (for_yield body (xs1 ++ x :: xs2) w)) = false.
Proof.
  intros Hx. revert w. induction xs1 as [|y xs1 IH]; intros w.
  - cbn [app for_yield]. unfold bind. specialize (Hx w).
    destruct (body x w) as [[ys|e] w1]; [discriminate | reflexivity].
  - cbn [app for_yield]. unfold bind.
    destruct (body y w) as [[ys|e] w1]; [|reflexivity].
    specialize (IH w1).
    destruct (for_yield body (xs1 ++ x :: xs2) w1) as [[more|e] w2];
      [discriminate | reflexivity].
Qed.


Lemma as_str_list_of_str_list l : as_str_list (of_str_list l) = Some l.
Proof.
  unfold as_str_list, of_str_list.
  induction l as [|s l IH]; cbn; [reflexivity|]. by rewrite IH.
Qed.

Lemma as_optional_str_list_of o :
  as_optional_str_list (of_optional_str_list o) = Some o.
Proof.
  destruct o as [l|]; [|reflexivity].
  unfold of_optional_str_list, as_optional_str_list.
  rewrite as_str_list_of_str_list. by destruct l.
Qed.


(** * The claims *)

(** ** Extraction at a boundary *)

Lemma append_empty_r (s : string) : String.append s EmptyString = s.
Proof.
  induction s as [|c s IH]; [reflexivity|].
  change (String c (String.append s EmptyString) = String c s). by rewrite IH.
Qed.

(** A range of a text that has a single span over its whole length is
    extracted as the slice of the text, with the range as its span: what
    the span denotes in the text is the extracted text, character for
    character. *)
Lemma extract_from_whole_text split_modified text s e :
  0 <= s -> s < e -> e <= len text ->
  extract split_modified text [Simple (Span.mk 0 (len text))] [(s, e)]
  = Ok (slice text s e, [Simple (Span.mk s e)]) /\
  SegmentationTest.denoted text [Simple (Span.mk s e)] = Some (slice text s e).
Proof.
  intros Hs Hse He. split.
  - unfold extract. cbn [ranges_ok].
    rewrite (proj2 (Z.leb_le 0 s)), (proj2 (Z.leb_le s e)),
            (proj2 (Z.leb_le e (len text))) by lia.
    cbn [andb extract_ranges extract_in_spans span_length Span.start Span.end_].
    replace (Z.max s 0) with s by lia.
    replace (Z.min e (0 + (len text - 0))) with e by lia.
    rewrite (proj2 (Z.ltb_lt s e)) by lia.
    cbn [rbind app]. rewrite append_empty_r.
    repeat f_equal; lia.
  - cbn. by rewrite append_empty_r.
Qed.

(** The sentences the test expects are the extractions of their ranges
    from the raw text annotation, and their texts are what the document
    holds at their spans; there are seven of them in both settings. *)
Lemma expected_sentences_consistent split_modified :
  Forall (SegmentationTest.consistent (extract split_modified))
         SegmentationTest.expected_default /\
  Forall (SegmentationTest.consistent (extract split_modified))
         SegmentationTest.expected_keep_punct /\
  List.length SegmentationTest.expected_default = 7%nat /\
  List.length SegmentationTest.expected_keep_punct = 7%nat.
Proof.
  split_and!; [| |reflexivity|reflexivity];
    repeat (apply Forall_cons; split;
            [split; [vm_compute; reflexivity
                    |eexists _, _; split;
                     [reflexivity | vm_compute; reflexivity]]|]);
    apply Forall_nil_2.
Qed.

(** C5, as the code has it: on the 25 characters of the sentence with its
    dot, the range (0, 24) drops the dot and yields Span(0, 24); the range
    (0, 25) selects the whole text, dot included, with Span(0, 25). *)
Theorem extract_drops_trailing_dot split_modified :
  extract split_modified "Sentence testing the dot."
          [Simple (Span.mk 0 25)] [(0, 24)]
  = Ok ("Sentence testing the dot", [Simple (Span.mk 0 24)]) /\
  extract split_modified "Sentence testing the dot."
          [Simple (Span.mk 0 25)] [(0, 25)]
  = Ok ("Sentence testing the dot.", [Simple (Span.mk 0 25)]).
Proof. split; reflexivity. Qed.

(** C5, as it is stated: with the spans [Span(0, 26)] and the range
    (0, 25) the text comes back with its dot. *)
Lemma extract_keeps_dot_counterexample :
  extract split_refused "Sentence testing the dot."
          [Simple (Span.mk 0 26)] [(0, 25)]
  = Ok ("Sentence testing the dot.", [Simple (Span.mk 0 25)]) /\
  extract split_refused "Sentence testing the dot."
          [Simple (Span.mk 0 26)] [(0, 25)]
  <> Ok ("Sentence testing the dot", [Simple (Span.mk 0 25)]).
Proof. split; [reflexivity | discriminate]. Qed.

(** ** The entities a matcher returns *)

Section Matchers.

Variable extract : extract_fn.
Variable repr : string -> string.
Variable requests_post : string -> list (string * string) -> Response.t.


(** C1: when a provenance sink is attached to a DucklingMatcher or to a
    QuickUMLSMatcher, every entity of the list that [run] returns has had
    [add_prov] called for it and for its newly created normalization
    attribute during the run, each time with the description of the
    matcher and with the segment it comes from as the only source. *)
Theorem run_records_provenance op sink segments w ents w' :
  Operation.prov_sink op = Some sink ->
  Operation.run extract repr requests_post op segments w = (Ok ents, w') ->
  Forall (provenance_recorded extract repr requests_post op segments w w') ents.
Proof.
  intros Hsink H. apply run_produces in H as (_ & H & _).
  eapply Forall_impl; [exact H|].
  intros e (segment & Hs & range & norm_attr & Hr & Hex & Ha & Hl & Hn & He & Hp).
  destruct (Hp sink Hsink) as [P1 P2].
  exists segment, norm_attr. split_and!; try done.
  - by exists range.
  - rewrite Ha. apply last_snoc.
Qed.



End Matchers.

(** C1 on the scenario: the date found by Duckling. *)
Lemma run_records_provenance_witness :
  Forall
    (provenance_recorded
       Scenario.extract Scenario.repr Scenario.requests_post
       (Operation.OfDuckling Scenario.duckling)
       [Scenario.other_sentence; Scenario.sentence] Scenario.world
       (snd (Operation.run Scenario.extract Scenario.repr Scenario.requests_post
                           (Operation.OfDuckling Scenario.duckling)
                           [Scenario.other_sentence; Scenario.sentence]
                           Scenario.world)))
    [Scenario.date_entity].
Proof.
  apply (run_records_provenance
           Scenario.extract Scenario.repr Scenario.requests_post
           (Operation.OfDuckling Scenario.duckling) ProcessProv
           [Scenario.other_sentence; Scenario.sentence] Scenario.world
           [Scenario.date_entity]).
  - reflexivity.
  - vm_compute. reflexivity.
Defined.




(** ** The description of a DucklingMatcher *)

Section Description.
Import DucklingMatcher.
Variable requests_get : string -> Response.t.


Lemma description_config_lookup self :
  let config := OperationDescription.config (description self) in
  config !! "output_label" = Some (PyStr (output_label self)) /\
  config !! "version" = Some (PyStr (version self)) /\
  config !! "url" = Some (PyStr (url self)) /\
  config !! "locale" = Some (PyStr (locale self)) /\
  config !! "dims" = Some (of_optional_str_list (dims self)) /\
  config !! "attrs_to_copy" = Some (of_str_list (attrs_to_copy self)).
Proof. destruct self. cbv zeta. split_and!; vm_compute; reflexivity. Qed.



End Description.


(** ** The registry of QuickUMLS installs *)

Section Registry.
Import QuickUMLSMatcher.

Lemma add_install_eq path version language lowercase normalize_unicode w :
  add_install path version language lowercase normalize_unicode w =
  (Ok tt,
   World.set_install_paths
     (<[(version, language, lowercase, normalize_unicode) := str path]>
        (World._install_paths w)) w).
Proof. reflexivity. Qed.

Lemma _get_path_to_install_lookup version language lowercase normalize_unicode w :
  _get_path_to_install version language lowercase normalize_unicode w =
  (match World._install_paths w
           !! (version, language, lowercase, normalize_unicode) with
   | Some path => Ok path
   | None => Raise Exception_
   end, w).
Proof.
  unfold _get_path_to_install.
  by destruct (World._install_paths w !! _).
Qed.

(** The registry after a sequence of calls none of which clears it or
    registers the install [k] again keeps what it held for [k]. *)
Lemma registry_calls_other (k : _QuickUMLSInstall) cs w :
  Forall (fun c => ~ registers k c /\ c <> ClearInstalls) cs ->
  fst (registry_calls cs w) = Ok tt /\
  World._install_paths (snd (registry_calls cs w)) !! k
  = World._install_paths w !! k.
Proof.
  intros H. revert w. induction H as [|c cs [Hc Hclear] _ IH]; intros w.
  - done.
  - cbn [registry_calls]. unfold bind.
    destruct c as [path v l lc nu|]; [|done].
    cbn [registry_call]. rewrite add_install_eq.
    destruct (IH (World.set_install_paths
                    (<[(v, l, lc, nu) := str path]> (World._install_paths w)) w))
      as [IH1 IH2].
    split; [exact IH1|]. rewrite IH2. cbn.
    apply lookup_insert_ne. intros E. apply Hc. cbn. by rewrite E.
Qed.

(** A sequence of calls that never registers [k] leaves [k] unregistered
    if it was. *)
Lemma registry_calls_never (k : _QuickUMLSInstall) cs w :
  World._install_paths w !! k = None ->
  Forall (fun c => ~ registers k c) cs ->
  fst (registry_calls cs w) = Ok tt /\
  World._install_paths (snd (registry_calls cs w)) !! k = None.
Proof.
  intros Hw H. revert w Hw. induction H as [|c cs Hc _ IH]; intros w Hw.
  - done.
  - cbn [registry_calls]. unfold bind.
    destruct c as [path v l lc nu|]; cbn [registry_call].
    + rewrite add_install_eq. apply IH. cbn.
      rewrite lookup_insert_ne; [done|]. intros E. apply Hc. cbn. by rewrite E.
    + unfold clear_installs. apply IH. cbn. apply lookup_empty.
Qed.

End Registry.

Section Install.
Import QuickUMLSMatcher.

Variable new_QuickUMLS :
  string -> string -> Z -> Z -> string -> list string -> Result QuickUMLS.t.
Variable quickumls_before_1_4_1 : bool.
Variable config_of : InitArgs.t -> gmap string PyValue.

Lemma __init___unregistered init_args w :
  World._install_paths w
    !! (InitArgs.version init_args, InitArgs.language init_args,
        InitArgs.lowercase init_args, InitArgs.normalize_unicode init_args)
  = None ->
  fst (__init__ new_QuickUMLS quickumls_before_1_4_1 config_of init_args w)
  = Raise Exception_.
Proof.
  intros Hw. unfold __init__, bind, _fix_spacy_language_map, NEROperation__init__, bind.
  destruct (World._spacy_language_map_fixed w);
    destruct (InitArgs.uid init_args); cbn;
    rewrite _get_path_to_install_lookup; cbn; by rewrite Hw.
Qed.

(** C9: after [add_install], and whatever is registered afterwards for
    other settings, [_get_path_to_install] returns [str(path)] for the
    four settings, the last path registered for them; for settings that
    were never registered, and for any settings after [clear_installs],
    it raises an exception, and so does the constructor of the
    matcher. *)
Theorem install_registry path version language lowercase normalize_unicode
        init_args calls w :
  let install : _QuickUMLSInstall :=
    (version, language, lowercase, normalize_unicode) in
  let lookup w0 :=
    fst (_get_path_to_install version language lowercase normalize_unicode w0) in
  let registered :=
    snd (add_install path version language lowercase normalize_unicode w) in
  (Forall (fun c => ~ registers install c /\ c <> ClearInstalls) calls ->
   lookup (snd (registry_calls calls registered)) = Ok (str path)) /\
  (World._install_paths w !! install = None ->
   Forall (fun c => ~ registers install c) calls ->
   lookup (snd (registry_calls calls w)) = Raise Exception_) /\
  lookup (snd (clear_installs w)) = Raise Exception_ /\
  (World._install_paths w
     !! (InitArgs.version init_args, InitArgs.language init_args,
         InitArgs.lowercase init_args, InitArgs.normalize_unicode init_args)
   = None ->
   fst (__init__ new_QuickUMLS quickumls_before_1_4_1 config_of init_args w)
   = Raise Exception_).
Proof.
  cbv beta zeta. split_and!.
  - intros H. rewrite _get_path_to_install_lookup. cbn [fst].
    destruct (registry_calls_other _ _
                (snd (add_install path version language lowercase
                                  normalize_unicode w)) H) as [_ ->].
    rewrite add_install_eq. cbn. by rewrite lookup_insert_eq.
  - intros Hw H. rewrite _get_path_to_install_lookup. cbn [fst].
    by destruct (registry_calls_never _ _ w Hw H) as [_ ->].
  - rewrite _get_path_to_install_lookup. cbn. by rewrite lookup_empty.
  - apply __init___unregistered.
Qed.

End Install.

(** C9 on the scenario: a registration, a lookup of settings that were
    not registered, a cleared registry and a constructor. *)
Lemma install_registry_witness :
  let lookup w :=
    fst (QuickUMLSMatcher._get_path_to_install "2021AB" "FRE" true false w) in
  let other :=
    QuickUMLSMatcher.AddInstall (PathStr "/opt/quickumls/eng") "2021AB" "ENG"
                                false false in
  lookup (snd (QuickUMLSMatcher.registry_calls
                 [other]
                 (snd (QuickUMLSMatcher.add_install
                         (PathObject "/opt/quickumls/fre") "2021AB" "FRE"
                         true false Scenario.world))))
  = Ok "/opt/quickumls/fre" /\
  lookup (snd (QuickUMLSMatcher.registry_calls [other] Scenario.world))
  = Raise Exception_ /\
  lookup (snd (QuickUMLSMatcher.clear_installs Scenario.world))
  = Raise Exception_ /\
  fst (QuickUMLSMatcher.__init__ Scenario.new_QuickUMLS false (fun _ => ∅)
                                 Scenario.init_args Scenario.world)
  = Raise Exception_.
Proof.
  cbv zeta.
  destruct (install_registry
              Scenario.new_QuickUMLS false (fun _ => ∅)
              (PathObject "/opt/quickumls/fre") "2021AB" "FRE" true false
              Scenario.init_args
              [QuickUMLSMatcher.AddInstall (PathStr "/opt/quickumls/eng")
                                           "2021AB" "ENG" false false]
              Scenario.world) as (H1 & H2 & H3 & H4).
  split_and!.
  - apply H1. repeat constructor; cbn; congruence.
  - apply H2; [reflexivity | repeat constructor; cbn; congruence].
  - exact H3.
  - apply H4. reflexivity.
Defined.

(** ** The failures of a DucklingMatcher *)

Section DucklingFailures.
Import DucklingMatcher.

Variable extract : extract_fn.
Variable repr : string -> string.
Variable requests_post : string -> list (string * string) -> Response.t.

Lemma _find_matches_in_segment_bad_status self segment w :
  Response.status_code (api_result repr requests_post self segment) <> 200 ->
  _find_matches_in_segment extract repr requests_post self segment w
  = (Raise ConnectionError, w).
Proof.
  intros H. unfold _find_matches_in_segment.
  apply Z.eqb_neq in H. by rewrite H.
Qed.

(** C4: when the request for a segment is answered with a status other
    than 200, [run] raises a ConnectionError and returns no entity, the
    entities found in the segments before it included; a list of
    segments with such a segment in it never yields a list of
    entities. *)
Theorem failed_request_fails_run self before segment after w :
  Response.status_code (api_result repr requests_post self segment) <> 200 ->
  (forall found w1,
      run extract repr requests_post self before w = (Ok found, w1) ->
      run extract repr requests_post self (before ++ segment :: after) w
      = (Raise ConnectionError, w1)) /\
  is_ok (fst (run extract repr requests_post self
                  (before ++ segment :: after) w)) = false.
Proof.
  intros Hstatus. split.
  - intros found w1 Hbefore. unfold DucklingMatcher.run.
    eapply for_yield_Raise_at; [exact Hbefore|].
    by apply _find_matches_in_segment_bad_status.
  - apply for_yield_never_Ok. intros w0.
    by rewrite _find_matches_in_segment_bad_status.
Qed.

Lemma _find_matches_in_segment_no_dims self segment w :
  dims self = None ->
  Response.status_code (api_result repr requests_post self segment) = 200 ->
  _find_matches_in_segment extract repr requests_post self segment w
  = match Response.json (api_result repr requests_post self segment) with
    | [] => (Ok [], w)
    | _ :: _ => (Raise TypeError, w)
    end.
Proof.
  intros Hdims Hstatus. unfold _find_matches_in_segment.
  rewrite Hstatus. cbn [Z.eqb negb Pos.eqb].
  destruct (Response.json _) as [|m rest]; [reflexivity|].
  cbn [for_yield]. unfold bind, entities_of_match. by rewrite Hdims.
Qed.

Lemma _find_matches_in_segment_no_dims_Ok self segment w ys w1 :
  dims self = None ->
  _find_matches_in_segment extract repr requests_post self segment w = (Ok ys, w1) ->
  ys = [] /\ w1 = w.
Proof.
  intros Hdims H.
  destruct (decide (Response.status_code
                      (api_result repr requests_post self segment) = 200))
    as [E|E].
  - rewrite _find_matches_in_segment_no_dims in H by done.
    destruct (Response.json _); [|discriminate]. by injection H as <- <-.
  - by rewrite _find_matches_in_segment_bad_status in H.
Qed.

(** C10: a DucklingMatcher with [dims=None] raises a TypeError as soon
    as the answer of the server for a segment holds a match; whatever
    the segments, when [run] returns a list it is the empty one. *)
Theorem no_dims_no_entities self before segment after segments w :
  dims self = None ->
  (forall found w1,
      run extract repr requests_post self before w = (Ok found, w1) ->
      Response.status_code (api_result repr requests_post self segment) = 200 ->
      Response.json (api_result repr requests_post self segment) <> [] ->
      run extract repr requests_post self (before ++ segment :: after) w
      = (Raise TypeError, w1)) /\
  (forall ents w',
      run extract repr requests_post self segments w = (Ok ents, w') ->
      ents = []).
Proof.
  intros Hdims. split.
  - intros found w1 Hbefore Hstatus Hjson. unfold DucklingMatcher.run.
    eapply for_yield_Raise_at; [exact Hbefore|].
    rewrite _find_matches_in_segment_no_dims by done.
    by destruct (Response.json _).
  - intros ents w' H. unfold DucklingMatcher.run in H.
    eapply for_yield_entities with (Q := fun _ _ _ => False) in H
      as (_ & H & _).
    + destruct H as [|e l []]. reflexivity.
    + done.
    + intros x w0 ys w0' _ Hx.
      apply _find_matches_in_segment_no_dims_Ok in Hx as [-> ->]; [|done].
      split_and!; [apply grows_refl | constructor | apply ordered_between_nil].
Qed.

End DucklingFailures.

(** C4 on the scenario: the date is found, then the server fails. *)
Lemma failed_request_fails_run_witness :
  DucklingMatcher.run
    Scenario.extract Scenario.repr Scenario.requests_post_failing
    Scenario.duckling ([Scenario.sentence] ++ Scenario.other_sentence :: [])
    Scenario.world
  = (Raise ConnectionError,
     snd (DucklingMatcher.run
            Scenario.extract Scenario.repr Scenario.requests_post_failing
            Scenario.duckling [Scenario.sentence] Scenario.world)) /\
  is_ok (fst (DucklingMatcher.run
                Scenario.extract Scenario.repr Scenario.requests_post_failing
                Scenario.duckling
                ([Scenario.sentence] ++ Scenario.other_sentence :: [])
                Scenario.world)) = false.
Proof.
  destruct (failed_request_fails_run
              Scenario.extract Scenario.repr Scenario.requests_post_failing
              Scenario.duckling [Scenario.sentence] Scenario.other_sentence []
              Scenario.world) as [H1 H2].
  - vm_compute. discriminate.
  - split; [|exact H2].
    apply (H1 [Scenario.date_entity]). vm_compute. reflexivity.
Defined.

(** C10 on the scenario: nothing in the first sentence, a date in the
    second. *)
Lemma no_dims_no_entities_witness :
  DucklingMatcher.run
    Scenario.extract Scenario.repr Scenario.requests_post
    Scenario.duckling_all_dims
    ([Scenario.other_sentence] ++ Scenario.sentence :: []) Scenario.world
  = (Raise TypeError, Scenario.world) /\
  fst (DucklingMatcher.run
         Scenario.extract Scenario.repr Scenario.requests_post
         Scenario.duckling_all_dims [Scenario.other_sentence] Scenario.world)
  = Ok [].
Proof.
  destruct (no_dims_no_entities
              Scenario.extract Scenario.repr Scenario.requests_post
              Scenario.duckling_all_dims [Scenario.other_sentence]
              Scenario.sentence [] [Scenario.other_sentence] Scenario.world)
    as [H1 H2].
  - reflexivity.
  - split.
    + apply (H1 []); [vm_compute; reflexivity | reflexivity
                     | vm_compute; discriminate].
    + reflexivity.
Defined.

(** ** One entity for each match location of QuickUMLS *)

Section OneEntityPerLocation.
Import QuickUMLSMatcher.
Variable extract : extract_fn.

Lemma entities_of_candidates_total self segment candidates w :
  extractable extract (segment, candidates) ->
  graph_known w ->
  exists ys w1,
    entities_of_candidates extract self segment candidates w = (Ok ys, w1) /\
    graph_known w1.
Proof.
  unfold extractable. cbn [fst snd].
  destruct candidates as [|first others]; [done|].
  intros Hex Hg. unfold entities_of_candidates.
  destruct (extract _ _ _) as [[text spans]|err]; [|discriminate].
  unfold lift. rewrite bind_Ok with (a := (text, spans)) (w1 := w) by reflexivity.
  rewrite bind_Ok with (1 := new_Entity_eq _ _ _ _ _).
  rewrite bind_Ok with (1 := new_Attribute_eq _ _ _ _).
  cbn [fst snd World.next_id World.set_next_id].
  set (entity := Entity.add_attr _ _).
  set (norm_attr := Attribute.mk _ _ _ _).
  set (w2 := World.set_next_id _ _).
  assert (Entity.id entity = World.next_id w) as Eid.
  { unfold entity, Entity.add_attr. cbn [Entity.id].
    by rewrite (proj1 (fold_add_attr_fields _ _)). }
  destruct (record_provenance_total (_prov_tracer self) (description self)
              entity norm_attr segment w2 (World.next_id w))
    as (w3 & Hrec & Hid & Hg3).
  { exact Hg. }
  { lia. }
  { rewrite Eid. cbn. lia. }
  rewrite bind_Ok with (1 := Hrec).
  eexists _, _. split; [reflexivity|].
  unfold graph_known. rewrite Hid. exact Hg3.
Qed.

Lemma flat_map_singleton {A B} (f : A -> B) l :
  flat_map (fun x => [f x]) l = map f l.
Proof. induction l as [|x l IH]; cbn; [done | by rewrite IH]. Qed.

Lemma entities_of_candidates_first_only self segment candidates w :
  entities_of_candidates extract (first_only self) segment (take 1 candidates) w
  = entities_of_candidates extract self segment candidates w.
Proof. by destruct candidates. Qed.

(** C8: for each match location that QuickUMLS reports, [run] creates
    one entity, in the order of the report, built from the first
    candidate of the location; the other candidates play no part in the
    result, and no rule is applied to choose among them. *)
Theorem one_entity_per_location self segments w :
  (forall ents w',
      QuickUMLSMatcher.run extract self segments w = (Ok ents, w') ->
      Forall2 (built_from_first extract self) (locations self segments) ents) /\
  QuickUMLSMatcher.run extract (first_only self) segments w
  = QuickUMLSMatcher.run extract self segments w /\
  (graph_known w ->
   Forall (extractable extract) (locations self segments) ->
   is_ok (fst (QuickUMLSMatcher.run extract self segments w)) = true).
Proof.
  split_and!.
  - intros ents w' H. unfold QuickUMLSMatcher.run in H.
    eapply for_yield_Forall2; [|exact H].
    intros segment w0 ys w1 Hseg. unfold _find_matches_in_segment in Hseg.
    rewrite <- flat_map_singleton.
    eapply for_yield_Forall2; [|exact Hseg].
    intros candidates w2 ys' w3 Hc.
    apply entities_of_candidates_Ok_inv in Hc
      as (first & others & text & spans & added & -> & Hex & Hc).
    cbv zeta in Hc. destruct Hc as (-> & _).
    constructor; [|constructor].
    unfold built_from_first. cbn [fst snd]. split_and!; [exact Hex | done |].
    by eexists.
  - unfold QuickUMLSMatcher.run. apply for_yield_ext. intros segment w0.
    unfold _find_matches_in_segment. cbn [first_only _matcher QuickUMLS.match_].
    rewrite for_yield_map. apply for_yield_ext. intros candidates w1.
    apply entities_of_candidates_first_only.
  - intros Hg Hloc.
    assert (exists ents w',
               QuickUMLSMatcher.run extract self segments w = (Ok ents, w') /\
               graph_known w')
      as (ents & w' & -> & _); [|reflexivity].
    unfold QuickUMLSMatcher.run.
    apply for_yield_total
      with (P := graph_known)
           (ok := fun segment =>
                    Forall (extractable extract)
                           (map (pair segment)
                                (QuickUMLS.match_ (_matcher self)
                                                  (Segment.text segment))));
      [| |exact Hg].
    + intros segment w0 Hok Hg0. unfold _find_matches_in_segment.
      apply for_yield_total
        with (P := graph_known)
             (ok := fun candidates => extractable extract (segment, candidates));
        [| |exact Hg0].
      * intros. by apply entities_of_candidates_total.
      * rewrite Forall_forall in Hok. apply Forall_forall. intros c Hc.
        apply Hok. apply list_elem_of_In, in_map, list_elem_of_In, Hc.
    + unfold locations in Hloc. rewrite Forall_forall in Hloc.
      apply Forall_forall. intros segment Hs. apply Forall_forall.
      intros loc Hl. apply Hloc. apply list_elem_of_In, in_flat_map.
      exists segment. split; by apply list_elem_of_In.
Qed.
End OneEntityPerLocation.

(** C8 on the scenario: two candidates for one location. *)
Lemma one_entity_per_location_witness :
  Forall2 (built_from_first Scenario.extract Scenario.quickumls_matcher)
          (locations Scenario.quickumls_matcher
                     [Scenario.other_sentence; Scenario.sentence])
          [Scenario.umls_entity] /\
  is_ok (fst (QuickUMLSMatcher.run
                Scenario.extract Scenario.quickumls_matcher
                [Scenario.other_sentence; Scenario.sentence] Scenario.world))
  = true.
Proof.
  destruct (one_entity_per_location
              Scenario.extract Scenario.quickumls_matcher
              [Scenario.other_sentence; Scenario.sentence] Scenario.world)
    as (H1 & _ & H3).
  split.
  - apply (H1 [Scenario.umls_entity]
              (snd (QuickUMLSMatcher.run
                      Scenario.extract Scenario.quickumls_matcher
                      [Scenario.other_sentence; Scenario.sentence]
                      Scenario.world))).
    vm_compute. reflexivity.
  - apply H3; repeat constructor.
Defined.

(** * Further properties of the matchers *)

(** ** Loops and the world they leave *)

Lemma for_yield_app {A B} (body : A -> M (list B)) xs1 xs2 w :
  for_yield body (xs1 ++ xs2) w
  = (ys <- for_yield body xs1 ;;
     more <- for_yield body xs2 ;;
     ret (ys ++ more)) w.
Proof.
  destruct (for_yield body xs1 w) as [[ys|e] w1] eqn:E.
  - rewrite (for_yield_app_Ok _ _ _ _ _ _ E), (bind_Ok _ _ _ _ _ E). reflexivity.
  - rewrite (bind_Raise _ _ _ _ _ E).
    revert w E. induction xs1 as [|x xs1 IH]; intros w E; [discriminate|].
    cbn [app for_yield] in *. unfold bind in *.
    destruct (body x w) as [[ys|e0] w0]; [|exact E].
    destruct (for_yield body xs1 w0) as [[more|e1] w2] eqn:E1; [discriminate|].
    injection E as -> ->. by rewrite (IH _ E1).
Qed.

Lemma for_yield_invariant {A B} (body : A -> M (list B)) (P : World.t -> Prop) xs :
  (forall x w, x ∈ xs -> P w -> P (snd (body x w))) ->
  forall w, P w -> P (snd (for_yield body xs w)).
Proof.
  induction xs as [|x xs IH]; intros Hbody w Hw; [exact Hw|].
  cbn [for_yield]. unfold bind.
  pose proof (Hbody x w (list_elem_of_here _ _) Hw) as Hx.
  destruct (body x w) as [[ys|e] w1]; [|exact Hx]. cbn [snd] in Hx.
  assert (P (snd (for_yield body xs w1))) as Hrest.
  { apply IH; [|exact Hx]. intros x' w0 Hin. apply Hbody. by right. }
  destruct (for_yield body xs w1) as [[more|e] w2]; exact Hrest.
Qed.

Lemma footprint_refl sink w : footprint sink w w.
Proof.
  unfold footprint. split_and!; try done.
  - exists []. by rewrite app_nil_r.
  - exists []. by rewrite app_nil_r.
Qed.

Lemma footprint_trans sink w1 w2 w3 :
  footprint sink w1 w2 -> footprint sink w2 w3 -> footprint sink w1 w3.
Proof.
  intros (A1 & B1 & C1 & D1 & (g1 & E1 & N1) & (i1 & F1))
         (A2 & B2 & C2 & D2 & (g2 & E2 & N2) & (i2 & F2)).
  unfold footprint. split_and!; try congruence; try lia.
  - exists (g1 ++ g2). split; [by rewrite E2, E1, app_assoc|].
    intros Hs. by rewrite N1, N2.
  - exists (i1 ++ i2). by rewrite F2, F1, app_assoc.
Qed.

Lemma add_prov_footprint pb item op sources w :
  footprint (Some pb) w (snd (add_prov pb item op sources w)).
Proof.
  unfold add_prov. destruct (get_node _ _); [apply footprint_refl|].
  unfold footprint. cbn. split_and!; try done.
  - eexists. split; [reflexivity | discriminate].
  - exists []. by rewrite app_nil_r.
Qed.

Lemma record_provenance_footprint sink op entity norm_attr segment w :
  footprint sink w (snd (record_provenance sink op entity norm_attr segment w)).
Proof.
  unfold record_provenance. destruct sink as [pb|]; [|apply footprint_refl].
  unfold bind.
  pose proof (add_prov_footprint pb (ItemEntity entity) op [ItemSegment segment] w) as H1.
  destruct (add_prov pb (ItemEntity entity) op [ItemSegment segment] w)
    as [[[]|e] w1]; [|exact H1].
  eapply footprint_trans; [exact H1|]. apply add_prov_footprint.
Qed.

Lemma record_provenance_warnings sink op entity norm_attr segment w :
  World.warnings (snd (record_provenance sink op entity norm_attr segment w))
  = World.warnings w.
Proof.
  unfold record_provenance, bind, add_prov. destruct sink; [|done].
  cbn. repeat (case_match; simplify_eq/=); done.
Qed.


Section DucklingEquations.
Import DucklingMatcher.
Variable extract : extract_fn.

(** The three ways of an iteration over a match. *)
Lemma entities_of_match_skipped self segment match_ ds w :
  dims self = Some ds -> DucklingMatch.dim match_ ∉ ds ->
  entities_of_match extract self segment match_ w
  = (Ok [],
     World.set_warnings
       (World.warnings w ++ ["Dims are not properly filtered by duckling API call"])
       w).
Proof.
  intros Hd Hn. unfold entities_of_match. rewrite Hd.
  by rewrite bool_decide_eq_false_2.
Qed.

Lemma entities_of_match_refused self segment match_ ds e w :
  dims self = Some ds -> DucklingMatch.dim match_ ∈ ds ->
  extract (Segment.text segment) (Segment.spans segment)
          [(DucklingMatch.start match_, DucklingMatch.end_ match_)] = Raise e ->
  entities_of_match extract self segment match_ w = (Raise e, w).
Proof.
  intros Hd Hin Hex. unfold entities_of_match. rewrite Hd.
  rewrite bool_decide_eq_true_2 by done. cbn [negb].
  unfold bind at 1, lift. by rewrite Hex.
Qed.

Lemma entities_of_match_kept self segment match_ ds text spans w :
  dims self = Some ds -> DucklingMatch.dim match_ ∈ ds ->
  extract (Segment.text segment) (Segment.spans segment)
          [(DucklingMatch.start match_, DucklingMatch.end_ match_)]
  = Ok (text, spans) ->
  let norm_attr :=
    Attribute.mk (World.next_id w) (output_label self)
                 (DucklingMatch.value match_)
                 [("version", PyStr (version self))] in
  let entity :=
    Entity.mk (S (World.next_id w)) (DucklingMatch.dim match_) text spans
      (filter (fun a => Attribute.label a ∈ attrs_to_copy self)
              (Segment.attrs segment) ++ [norm_attr]) in
  entities_of_match extract self segment match_ w
  = (record_provenance (_prov_builder self) (description self) entity
                       norm_attr segment ;;;
     ret [entity])
      (World.set_next_id (S (S (World.next_id w))) w).
Proof.
  intros Hd Hin Hex. unfold entities_of_match. rewrite Hd.
  rewrite bool_decide_eq_true_2 by done. cbn [negb].
  unfold bind at 1, lift. rewrite Hex.
  rewrite bind_Ok with (1 := new_Attribute_eq _ _ _ _).
  rewrite bind_Ok with (1 := new_Entity_eq _ _ _ _ _).
  reflexivity.
Qed.

End DucklingEquations.

Section QuickUMLSEquations.
Import QuickUMLSMatcher.
Variable extract : extract_fn.

Lemma entities_of_candidates_refused self segment first others e w :
  extract (Segment.text segment) (Segment.spans segment)
          [(Candidate.start first, Candidate.end_ first)] = Raise e ->
  entities_of_candidates extract self segment (first :: others) w = (Raise e, w).
Proof.
  intros Hex. unfold entities_of_candidates, bind at 1, lift. by rewrite Hex.
Qed.

Lemma entities_of_candidates_kept self segment first others text spans w :
  extract (Segment.text segment) (Segment.spans segment)
          [(Candidate.start first, Candidate.end_ first)]
  = Ok (text, spans) ->
  let norm_attr :=
    Attribute.mk (S (World.next_id w)) "umls" (PyStr (Candidate.cui first))
      [("version", PyStr (version self));
       ("score", PyFloat (Candidate.similarity first));
       ("sem_types", of_str_list (Candidate.semtypes first))] in
  let entity :=
    Entity.mk (World.next_id w) (Candidate.term first) text spans
              (copied_attrs self segment ++ [norm_attr]) in
  entities_of_candidates extract self segment (first :: others) w
  = (record_provenance (_prov_tracer self) (description self) entity
                       norm_attr segment ;;;
     ret [entity])
      (World.set_next_id (S (S (World.next_id w))) w).
Proof.
  intros Hex. unfold entities_of_candidates, bind at 1, lift. rewrite Hex.
  rewrite bind_Ok with (1 := new_Entity_eq _ _ _ _ _).
  rewrite bind_Ok with (1 := new_Attribute_eq _ _ _ _).
  cbn [fst snd].
  destruct (fold_add_attr_fields (copied_attrs self segment)
              (Entity.mk (World.next_id w) (Candidate.term first) text spans []))
    as (Ei & El & Et & Es).
  pose proof (fold_add_attr_attrs (copied_attrs self segment)
              (Entity.mk (World.next_id w) (Candidate.term first) text spans []))
    as Ea.
  cbn in Ei, El, Et, Es, Ea.
  assert (Entity.add_attr
            (fold_left Entity.add_attr (copied_attrs self segment)
               (Entity.mk (World.next_id w) (Candidate.term first) text spans []))
            (Attribute.mk (S (World.next_id w)) "umls" (PyStr (Candidate.cui first))
      [("version", PyStr (version self));
       ("score", PyFloat (Candidate.similarity first));
       ("sem_types", of_str_list (Candidate.semtypes first))])
          = Entity.mk (World.next_id w) (Candidate.term first) text spans
              (copied_attrs self segment ++ [Attribute.mk (S (World.next_id w)) "umls" (PyStr (Candidate.cui first))
      [("version", PyStr (version self));
       ("score", PyFloat (Candidate.similarity first));
       ("sem_types", of_str_list (Candidate.semtypes first))]])) as E.
  { unfold Entity.add_attr at 1. by rewrite Ei, El, Et, Es, Ea. }
  cbn [World.next_id World.set_next_id]. rewrite E. reflexivity.
Qed.

End QuickUMLSEquations.

Section Footprint.
Variable extract : extract_fn.
Variable repr : string -> string.
Variable requests_post : string -> list (string * string) -> Response.t.

Lemma recorded_footprint sink op entity norm_attr segment w0 w :
  footprint sink w0 w ->
  footprint sink w0
    (snd ((record_provenance sink op entity norm_attr segment ;;;
           ret [entity]) w)).
Proof.
  intros H0. unfold bind.
  pose proof (record_provenance_footprint sink op entity norm_attr segment w) as H.
  destruct (record_provenance sink op entity norm_attr segment w) as [[u|e] w1];
    cbn [snd] in *; by eapply footprint_trans.
Qed.

Lemma recorded_warnings sink op entity norm_attr segment w :
  World.warnings
    (snd ((record_provenance sink op entity norm_attr segment ;;;
           ret [entity]) w))
  = World.warnings w.
Proof.
  unfold bind.
  pose proof (record_provenance_warnings sink op entity norm_attr segment w) as H.
  by destruct (record_provenance sink op entity norm_attr segment w) as [[u|e] w1].
Qed.

Lemma entities_of_match_footprint self segment match_ w :
  footprint (DucklingMatcher._prov_builder self) w
    (snd (DucklingMatcher.entities_of_match extract self segment match_ w)).
Proof.
  destruct (DucklingMatcher.dims self) as [ds|] eqn:Hd.
  - destruct (decide (DucklingMatch.dim match_ ∈ ds)) as [Hin|Hn].
    + destruct (extract (Segment.text segment) (Segment.spans segment)
                  [(DucklingMatch.start match_, DucklingMatch.end_ match_)])
        as [[text spans]|e] eqn:Hex.
      * rewrite (entities_of_match_kept _ _ _ _ _ _ _ _ Hd Hin Hex).
        apply recorded_footprint.
        unfold footprint. cbn. split_and!; try done; try lia.
        -- exists []. by rewrite app_nil_r.
        -- exists []. by rewrite app_nil_r.
      * rewrite (entities_of_match_refused _ _ _ _ _ _ _ Hd Hin Hex).
        apply footprint_refl.
    + rewrite (entities_of_match_skipped _ _ _ _ _ _ Hd Hn).
      unfold footprint. cbn. split_and!; try done.
      * exists []. by rewrite app_nil_r.
      * by eexists.
  - unfold DucklingMatcher.entities_of_match. rewrite Hd. apply footprint_refl.
Qed.

Lemma entities_of_candidates_footprint self segment candidates w :
  footprint (QuickUMLSMatcher._prov_tracer self) w
    (snd (QuickUMLSMatcher.entities_of_candidates extract self segment candidates w)) /\
  World.warnings
    (snd (QuickUMLSMatcher.entities_of_candidates extract self segment candidates w))
  = World.warnings w.
Proof.
  destruct candidates as [|first others]; [split; [apply footprint_refl | done]|].
  destruct (extract (Segment.text segment) (Segment.spans segment)
              [(Candidate.start first, Candidate.end_ first)])
    as [[text spans]|e] eqn:Hex.
  - rewrite (entities_of_candidates_kept _ _ _ _ _ _ _ _ Hex). split.
    + apply recorded_footprint.
      unfold footprint. cbn. split_and!; try done; try lia.
      * exists []. by rewrite app_nil_r.
      * exists []. by rewrite app_nil_r.
    + by rewrite recorded_warnings.
  - rewrite (entities_of_candidates_refused _ _ _ _ _ _ _ Hex).
    split; [apply footprint_refl | done].
Qed.

Lemma for_yield_footprint {A B} (body : A -> M (list B)) sink xs :
  (forall x w, footprint sink w (snd (body x w))) ->
  forall w, footprint sink w (snd (for_yield body xs w)).
Proof.
  intros Hbody w.
  apply for_yield_invariant with (P := footprint sink w);
    [|apply footprint_refl].
  intros x w0 _ H0. eapply footprint_trans; [exact H0 | apply Hbody].
Qed.

(** Whatever [run] does, and however it ends, it keeps its hands off the
    registry of installs and the language map, hands out identifiers,
    appends to the warnings and to the provenance graph, and to the latter
    only when a provenance sink is attached. *)
Theorem run_footprint op segments w :
  footprint (Operation.prov_sink op) w
            (snd (Operation.run extract repr requests_post op segments w)).
Proof.
  destruct op as [self|self]; cbn [Operation.run Operation.prov_sink].
  - apply for_yield_footprint. intros segment w0.
    unfold DucklingMatcher._find_matches_in_segment.
    destruct (negb _); [apply footprint_refl|].
    apply for_yield_footprint. intros m w1. apply entities_of_match_footprint.
  - apply for_yield_footprint. intros segment w0.
    apply for_yield_footprint. intros c w1.
    apply entities_of_candidates_footprint.
Qed.

(** A QuickUMLSMatcher issues no warning. *)
Lemma quickumls_run_warnings self segments w :
  World.warnings (snd (QuickUMLSMatcher.run extract self segments w))
  = World.warnings w.
Proof.
  apply for_yield_invariant
    with (P := fun w0 => World.warnings w0 = World.warnings w); [|done].
  intros segment w0 _ H0.
  apply for_yield_invariant
    with (P := fun w1 => World.warnings w1 = World.warnings w); [|done].
  intros c w1 _ H1.
  by rewrite (proj2 (entities_of_candidates_footprint _ _ _ _)).
Qed.

End Footprint.

(** ** The matches a DucklingMatcher keeps and skips *)

Lemma for_yield_warnings {A B} (body : A -> M (list B)) (h : A -> list string) xs :
  (forall x w ys w1, body x w = (Ok ys, w1) ->
                     World.warnings w1 = World.warnings w ++ h x) ->
  forall w bs w',
    for_yield body xs w = (Ok bs, w') ->
    World.warnings w' = World.warnings w ++ flat_map h xs.
Proof.
  intros Hbody. induction xs as [|x xs IH]; intros w bs w' H.
  - cbn in H. injection H as <- <-. cbn. by rewrite app_nil_r.
  - apply for_yield_cons_inv in H as (ys & w1 & more & Hx & Hrest & ->).
    cbn [flat_map]. rewrite (IH _ _ _ Hrest), (Hbody _ _ _ _ Hx).
    by rewrite app_assoc.
Qed.

Lemma for_yield_ids {A B} (body : A -> M (list B)) (ids : B -> list Id) xs :
  (forall x w ys w1,
      body x w = (Ok ys, w1) ->
      flat_map ids ys
      = seq (World.next_id w) (length (flat_map ids ys)) /\
      World.next_id w1 = (World.next_id w + length (flat_map ids ys))%nat) ->
  forall w bs w',
    for_yield body xs w = (Ok bs, w') ->
    flat_map ids bs
    = seq (World.next_id w) (length (flat_map ids bs)) /\
    World.next_id w' = (World.next_id w + length (flat_map ids bs))%nat.
Proof.
  intros Hbody. induction xs as [|x xs IH]; intros w bs w' H.
  - cbn in H. injection H as <- <-. cbn. split; [done | lia].
  - apply for_yield_cons_inv in H as (ys & w1 & more & Hx & Hrest & ->).
    destruct (Hbody _ _ _ _ Hx) as [E1 N1].
    destruct (IH _ _ _ Hrest) as [E2 N2].
    rewrite flat_map_app, length_app, seq_app. split.
    + rewrite <- E1. rewrite N1 in E2. by rewrite <- E2.
    + lia.
Qed.


Lemma filter_flat_map {A B} (p : B -> bool) (g : A -> list B) xs :
  List.filter p (flat_map g xs) = flat_map (fun x => List.filter p (g x)) xs.
Proof.
  induction xs as [|x xs IH]; [reflexivity|].
  cbn [flat_map]. by rewrite List.filter_app, IH.
Qed.

Lemma filter_map_flat_map {A B} (p : B -> bool) (f : A -> B) xs :
  List.filter p (map f xs)
  = flat_map (fun x => if p (f x) then [f x] else []) xs.
Proof.
  induction xs as [|x xs IH]; [reflexivity|].
  cbn [map List.filter flat_map]. rewrite IH. by destruct (p (f x)).
Qed.

Lemma map_filter_flat_map {A B C} (f : B -> C) (p : B -> bool) (g : A -> list B) xs :
  map f (List.filter p (flat_map g xs))
  = flat_map (fun x => map f (List.filter p (g x))) xs.
Proof.
  induction xs as [|x xs IH]; [reflexivity|].
  cbn [flat_map]. by rewrite List.filter_app, map_app, IH.
Qed.

Lemma map_filter_map {A B C} (f : B -> C) (p : B -> bool) (k : A -> B) xs :
  map f (List.filter p (map k xs))
  = flat_map (fun x => if p (k x) then [f (k x)] else []) xs.
Proof.
  induction xs as [|x xs IH]; [reflexivity|].
  cbn [map List.filter flat_map]. rewrite <- IH. by destruct (p (k x)).
Qed.

Section DucklingRun.
Import DucklingMatcher.
Variable extract : extract_fn.
Variable repr : string -> string.
Variable requests_post : string -> list (string * string) -> Response.t.

Lemma _find_matches_in_segment_Ok_inv self segment w ys w1 :
  _find_matches_in_segment extract repr requests_post self segment w = (Ok ys, w1) ->
  Response.status_code (api_result repr requests_post self segment) = 200 /\
  for_yield (entities_of_match extract self segment)
            (Response.json (api_result repr requests_post self segment)) w
  = (Ok ys, w1).
Proof.
  unfold _find_matches_in_segment.
  destruct (Z.eqb_spec (Response.status_code
                          (api_result repr requests_post self segment)) 200)
    as [E|E]; cbn [negb]; [done | discriminate].
Qed.


Lemma requested_true self m :
  requested self m = true <->
  exists ds, dims self = Some ds /\ DucklingMatch.dim m ∈ ds.
Proof.
  unfold requested. destruct (dims self) as [ds|].
  - rewrite bool_decide_eq_true. split; [by exists ds | by intros (? & [= <-] & ?)].
  - split; [discriminate | by intros (? & ? & ?)].
Qed.

(** The entities of a run are those of the kept matches, one for one. *)
Lemma kept_matches_built self segments w ents w' :
  run extract repr requests_post self segments w = (Ok ents, w') ->
  Forall2 (built_from_match extract self)
          (kept repr requests_post self segments) ents.
Proof.
  intros H. unfold kept, answers. rewrite filter_flat_map.
  eapply for_yield_Forall2; [|exact H].
  intros segment w0 ys w1 Hseg.
  apply _find_matches_in_segment_Ok_inv in Hseg as [_ Hseg].
  rewrite filter_map_flat_map.
  eapply for_yield_Forall2; [|exact Hseg].
  intros m w2 ys' w3 Hm. cbn [snd].
  apply entities_of_match_Ok_inv in Hm
    as (ds & Hd & [(Hn & -> & _)|(Hin & text & spans & added & Hex & Hm)]).
  - assert (requested self m = false) as ->; [|constructor].
    unfold requested. rewrite Hd. by apply bool_decide_eq_false_2.
  - assert (requested self m = true) as ->.
    { apply requested_true. by exists ds. }
    cbv zeta in Hm. destruct Hm as (-> & _).
    constructor; [|constructor].
    unfold built_from_match. cbn [fst snd]. split_and!; [exact Hex | done |].
    by eexists.
Qed.

Lemma skipped_matches_warned self segments w ents w' :
  run extract repr requests_post self segments w = (Ok ents, w') ->
  World.warnings w'
  = World.warnings w ++
    map (fun _ => "Dims are not properly filtered by duckling API call")
        (skipped repr requests_post self segments).
Proof.
  intros H. unfold skipped, answers. rewrite map_filter_flat_map.
  eapply for_yield_warnings; [|exact H].
  intros segment w0 ys w1 Hseg.
  apply _find_matches_in_segment_Ok_inv in Hseg as [_ Hseg].
  rewrite map_filter_map.
  eapply for_yield_warnings; [|exact Hseg].
    intros m w2 ys' w3 Hm. cbn [snd].
    destruct (dims self) as [ds|] eqn:Hd.
    + destruct (decide (DucklingMatch.dim m ∈ ds)) as [Hin|Hn].
      * assert (requested self m = true) as ->.
        { apply requested_true. by exists ds. }
        cbn [negb]. rewrite app_nil_r.
        destruct (extract (Segment.text segment) (Segment.spans segment)
                    [(DucklingMatch.start m, DucklingMatch.end_ m)])
          as [[text spans]|e] eqn:Hex.
        -- rewrite (entities_of_match_kept _ _ _ _ _ _ _ _ Hd Hin Hex) in Hm.
           pose proof (recorded_warnings (_prov_builder self) (description self)
                         (Entity.mk (S (World.next_id w2)) (DucklingMatch.dim m)
                            text spans
                            (filter (fun a => Attribute.label a ∈ attrs_to_copy self)
                                    (Segment.attrs segment) ++
                             [Attribute.mk (World.next_id w2) (output_label self)
                                (DucklingMatch.value m)
                                [("version", PyStr (version self))]]))
                         (Attribute.mk (World.next_id w2) (output_label self)
                                (DucklingMatch.value m)
                                [("version", PyStr (version self))])
                         segment
                         (World.set_next_id (S (S (World.next_id w2))) w2)) as Hw.
           cbv zeta in Hm. rewrite Hm in Hw. exact Hw.
        -- by rewrite (entities_of_match_refused _ _ _ _ _ _ _ Hd Hin Hex) in Hm.
      * assert (requested self m = false) as ->.
        { unfold requested. rewrite Hd. by apply bool_decide_eq_false_2. }
        rewrite (entities_of_match_skipped _ _ _ _ _ _ Hd Hn) in Hm.
        by injection Hm as _ <-.
    + unfold entities_of_match in Hm. by rewrite Hd in Hm.
Qed.

End DucklingRun.

(** ** Fresh identifiers, and the ways a run fails *)

Lemma get_node_absent g i :
  Forall (fun n => ProvNode.data_item_id n <> i) g -> get_node g i = None.
Proof.
  intros H. unfold get_node. induction H as [|n g Hn _ IH]; [reflexivity|].
  cbn. by destruct (Nat.eqb_spec (ProvNode.data_item_id n) i).
Qed.

Lemma record_provenance_fresh sink op entity norm_attr segment w k :
  Forall (fun n => (ProvNode.data_item_id n < k)%nat) (World.graph w) ->
  (k <= Entity.id entity)%nat ->
  (k <= Attribute.id norm_attr)%nat ->
  Entity.id entity <> Attribute.id norm_attr ->
  exists w1,
    record_provenance sink op entity norm_attr segment w = (Ok tt, w1) /\
    World.next_id w1 = World.next_id w /\
    Forall (fun n => (ProvNode.data_item_id n
                      < S (Nat.max (Entity.id entity) (Attribute.id norm_attr)))%nat)
           (World.graph w1).
Proof.
  intros Hg He Hn Hne. unfold record_provenance. destruct sink as [prov|].
  - unfold bind, add_prov. cbn [item_id].
    rewrite get_node_absent.
    2:{ eapply Forall_impl; [exact Hg|]. intros; cbn in *; lia. }
    cbn [World.graph World.set_graph].
    rewrite get_node_absent.
    2:{ apply Forall_app. split.
        - eapply Forall_impl; [exact Hg|]. intros; cbn in *; lia.
        - constructor; [|constructor]. cbn [ProvNode.data_item_id]. done. }
    eexists. split; [reflexivity|]. split; [reflexivity|].
    cbn [snd World.graph World.set_graph]. rewrite !Forall_app. split_and!.
    + eapply Forall_impl; [exact Hg|]. intros n Hlt. cbn beta in *. lia.
    + constructor; [|constructor]. cbn [ProvNode.data_item_id item_id]. lia.
    + constructor; [|constructor]. cbn [ProvNode.data_item_id item_id]. lia.
  - exists w. split; [reflexivity|]. split; [reflexivity|].
    eapply Forall_impl; [exact Hg|]. intros n Hlt. cbn beta in *. lia.
Qed.

(** An entity and its normalization attribute, just created, are recorded
    without fail in a graph that holds older identifiers only. *)
Lemma recorded_known sink op entity norm_attr segment w :
  graph_known w ->
  (Entity.id entity = World.next_id w /\
   Attribute.id norm_attr = S (World.next_id w)) \/
  (Attribute.id norm_attr = World.next_id w /\
   Entity.id entity = S (World.next_id w)) ->
  exists w1,
    (record_provenance sink op entity norm_attr segment ;;; ret [entity])
      (World.set_next_id (S (S (World.next_id w))) w)
    = (Ok [entity], w1) /\
    graph_known w1.
Proof.
  intros Hg Hids.
  destruct (record_provenance_fresh sink op entity norm_attr segment
              (World.set_next_id (S (S (World.next_id w))) w) (World.next_id w))
    as (w1 & Hrec & Hid & Hg1).
  - exact Hg.
  - lia.
  - lia.
  - lia.
  - exists w1. split; [by rewrite (bind_Ok _ _ _ _ _ Hrec)|].
    unfold graph_known. rewrite Hid. cbn.
    eapply Forall_impl; [exact Hg1|]. intros n Hn. cbn in *. lia.
Qed.


Section Known.
Variable extract : extract_fn.
Variable repr : string -> string.
Variable requests_post : string -> list (string * string) -> Response.t.

Lemma entities_of_match_known self segment m w :
  graph_known w ->
  graph_known (snd (DucklingMatcher.entities_of_match extract self segment m w)).
Proof.
  intros Hg. destruct (DucklingMatcher.dims self) as [ds|] eqn:Hd.
  - destruct (decide (DucklingMatch.dim m ∈ ds)) as [Hin|Hn].
    + destruct (extract (Segment.text segment) (Segment.spans segment)
                  [(DucklingMatch.start m, DucklingMatch.end_ m)])
        as [[text spans]|e] eqn:Hex.
      * rewrite (entities_of_match_kept _ _ _ _ _ _ _ _ Hd Hin Hex). cbv zeta.
        edestruct recorded_known as (w1 & -> & Hg1); [exact Hg| |exact Hg1].
        right. split; reflexivity.
      * by rewrite (entities_of_match_refused _ _ _ _ _ _ _ Hd Hin Hex).
    + by rewrite (entities_of_match_skipped _ _ _ _ _ _ Hd Hn).
  - unfold DucklingMatcher.entities_of_match. by rewrite Hd.
Qed.

Lemma entities_of_candidates_known self segment candidates w :
  graph_known w ->
  graph_known
    (snd (QuickUMLSMatcher.entities_of_candidates extract self segment candidates w)).
Proof.
  intros Hg. destruct candidates as [|first others]; [exact Hg|].
  destruct (extract (Segment.text segment) (Segment.spans segment)
              [(Candidate.start first, Candidate.end_ first)])
    as [[text spans]|e] eqn:Hex.
  - rewrite (entities_of_candidates_kept _ _ _ _ _ _ _ _ Hex). cbv zeta.
    edestruct recorded_known as (w1 & -> & Hg1); [exact Hg| |exact Hg1].
    left. split; reflexivity.
  - by rewrite (entities_of_candidates_refused _ _ _ _ _ _ _ Hex).
Qed.

Lemma duckling_segment_known self segment w :
  graph_known w ->
  graph_known
    (snd (DucklingMatcher._find_matches_in_segment
            extract repr requests_post self segment w)).
Proof.
  intros Hg. unfold DucklingMatcher._find_matches_in_segment.
  destruct (negb _); [exact Hg|].
  apply for_yield_invariant; [|exact Hg].
  intros m w0 _. apply entities_of_match_known.
Qed.

Lemma quickumls_segment_known self segment w :
  graph_known w ->
  graph_known
    (snd (QuickUMLSMatcher._find_matches_in_segment extract self segment w)).
Proof.
  intros Hg. unfold QuickUMLSMatcher._find_matches_in_segment.
  apply for_yield_invariant; [|exact Hg].
  intros m w0 _. apply entities_of_candidates_known.
Qed.

(** The identifiers of the provenance graph stay older than the next
    identifier through a run, however it ends: runs can follow one another
    on the same graph. *)
Theorem run_keeps_graph_known op segments w :
  graph_known w ->
  graph_known (snd (Operation.run extract repr requests_post op segments w)).
Proof.
  intros Hg. destruct op as [self|self]; cbn [Operation.run];
    unfold DucklingMatcher.run, QuickUMLSMatcher.run;
    (apply for_yield_invariant; [|exact Hg]); intros segment w0 _.
  - apply duckling_segment_known.
  - apply quickumls_segment_known.
Qed.

End Known.

Section Causes.
Variable extract : extract_fn.
Variable repr : string -> string.
Variable requests_post : string -> list (string * string) -> Response.t.





End Causes.

Section DucklingSuccess.
Import DucklingMatcher.
Variable extract : extract_fn.
Variable repr : string -> string.
Variable requests_post : string -> list (string * string) -> Response.t.


End DucklingSuccess.

(** ** The identifiers a run draws *)

Section Ids.
Variable extract : extract_fn.
Variable repr : string -> string.
Variable requests_post : string -> list (string * string) -> Response.t.


Lemma duckling_step_ids self segment m w ys w1 :
  DucklingMatcher.entities_of_match extract self segment m w = (Ok ys, w1) ->
  flat_map (created_ids (Operation.OfDuckling self)) ys
  = seq (World.next_id w)
        (length (flat_map (created_ids (Operation.OfDuckling self)) ys)) /\
  World.next_id w1
  = (World.next_id w
     + length (flat_map (created_ids (Operation.OfDuckling self)) ys))%nat.
Proof.
  intros H. apply entities_of_match_Ok_inv in H
    as (ds & Hd & [(Hn & -> & Hid & _)|(Hin & text & spans & added & Hex & H)]).
  - cbn. split; [done | lia].
  - cbv zeta in H. destruct H as (-> & Hid & _).
    cbn [flat_map created_ids app length]. rewrite norm_id_snoc.
    cbn. split; [done | lia].
Qed.

Lemma quickumls_step_ids self segment c w ys w1 :
  QuickUMLSMatcher.entities_of_candidates extract self segment c w = (Ok ys, w1) ->
  flat_map (created_ids (Operation.OfQuickUMLS self)) ys
  = seq (World.next_id w)
        (length (flat_map (created_ids (Operation.OfQuickUMLS self)) ys)) /\
  World.next_id w1
  = (World.next_id w
     + length (flat_map (created_ids (Operation.OfQuickUMLS self)) ys))%nat.
Proof.
  intros H. apply entities_of_candidates_Ok_inv in H
    as (first & others & text & spans & added & -> & Hex & H).
  cbv zeta in H. destruct H as (-> & Hid & _).
  cbn [flat_map created_ids app length]. rewrite norm_id_snoc.
  cbn. split; [done | lia].
Qed.

Lemma length_created_ids op ents :
  length (flat_map (created_ids op) ents) = (2 * length ents)%nat.
Proof.
  induction ents as [|e ents IH]; [reflexivity|].
  cbn [flat_map]. rewrite length_app, IH. destruct op; cbn; lia.
Qed.

Lemma run_ids op segments w ents w' :
  Operation.run extract repr requests_post op segments w = (Ok ents, w') ->
  flat_map (created_ids op) ents
  = seq (World.next_id w) (2 * length ents) /\
  World.next_id w' = (World.next_id w + 2 * length ents)%nat.
Proof.
  intros H. rewrite <- (length_created_ids op ents).
  destruct op as [self|self]; cbn [Operation.run] in H.
  - eapply for_yield_ids; [|exact H]. intros segment w0 ys w1 Hseg.
    apply _find_matches_in_segment_Ok_inv in Hseg as [_ Hseg].
    eapply for_yield_ids; [|exact Hseg]. apply duckling_step_ids.
  - eapply for_yield_ids; [|exact H]. intros segment w0 ys w1 Hseg.
    eapply for_yield_ids; [|exact Hseg]. apply quickumls_step_ids.
Qed.

End Ids.

(** ** The provenance a run records *)

Lemma record_provenance_graph sink op entity norm_attr segment w u w' :
  record_provenance sink op entity norm_attr segment w = (Ok u, w') ->
  World.graph w'
  = World.graph w ++
    match sink with
    | None => []
    | Some _ =>
        [ProvNode.mk (Entity.id entity) op [Segment.id segment];
         ProvNode.mk (Attribute.id norm_attr) op [Segment.id segment]]
    end.
Proof.
  unfold record_provenance. destruct sink as [prov|].
  - intros H. apply bind_Ok_inv in H as ([] & w1 & H1 & H2).
    apply add_prov_Ok_inv in H1 as [_ ->].
    apply add_prov_Ok_inv in H2 as [_ ->].
    cbn. by rewrite <- app_assoc.
  - intros H. injection H as _ <-. by rewrite app_nil_r.
Qed.

Lemma for_yield_added {A B} (body : A -> M (list B)) (ids : B -> list Id)
      (P : ProvNode.t -> Prop) xs :
  (forall x w ys w1,
      x ∈ xs -> body x w = (Ok ys, w1) ->
      exists added,
        World.graph w1 = World.graph w ++ added /\
        map ProvNode.data_item_id added = flat_map ids ys /\
        Forall P added) ->
  forall w bs w',
    for_yield body xs w = (Ok bs, w') ->
    exists added,
      World.graph w' = World.graph w ++ added /\
      map ProvNode.data_item_id added = flat_map ids bs /\
      Forall P added.
Proof.
  induction xs as [|x xs IH]; intros Hbody w bs w' H.
  - cbn in H. injection H as <- <-. exists []. by rewrite app_nil_r.
  - apply for_yield_cons_inv in H as (ys & w1 & more & Hx & Hrest & ->).
    destruct (Hbody x w ys w1) as (a1 & G1 & I1 & P1); [left | done |].
    destruct (IH (fun x' w0 ys' w0' Hin =>
                    Hbody x' w0 ys' w0' (list_elem_of_further _ _ _ Hin))
                 w1 more w' Hrest) as (a2 & G2 & I2 & P2).
    exists (a1 ++ a2). split_and!.
    + by rewrite G2, G1, app_assoc.
    + by rewrite map_app, flat_map_app, I1, I2.
    + by apply Forall_app.
Qed.

Section Recorded.
Variable extract : extract_fn.
Variable repr : string -> string.
Variable requests_post : string -> list (string * string) -> Response.t.

Lemma recorded_graph sink op entity norm_attr segment w ys w1 :
  (record_provenance sink op entity norm_attr segment ;;; ret [entity]) w
  = (Ok ys, w1) ->
  ys = [entity] /\
  World.graph w1
  = World.graph w ++
    match sink with
    | None => []
    | Some _ =>
        [ProvNode.mk (Entity.id entity) op [Segment.id segment];
         ProvNode.mk (Attribute.id norm_attr) op [Segment.id segment]]
    end.
Proof.
  intros H. apply bind_Ok_inv in H as (u & w2 & Hrec & H).
  injection H as <- <-. split; [done|].
  by apply record_provenance_graph in Hrec.
Qed.

Lemma segment_added op segments segment w ys w1 :
  segment ∈ segments ->
  Operation.run extract repr requests_post op [segment] w = (Ok ys, w1) ->
  exists added,
    World.graph w1 = World.graph w ++ added /\
    map ProvNode.data_item_id added
    = flat_map (fun e => match Operation.prov_sink op with
                         | None => []
                         | Some _ => [Entity.id e; norm_id e]
                         end) ys /\
    Forall (recorded_by op segments) added.
Proof.
  intros Hs H.
  destruct op as [self|self]; cbn [Operation.run] in H;
    apply for_yield_cons_inv in H
      as (ys0 & w0 & more & Hseg & Hnil & ->);
    cbn in Hnil; injection Hnil as <- <-; rewrite app_nil_r.
  - apply _find_matches_in_segment_Ok_inv in Hseg as [_ Hseg].
    eapply for_yield_added; [|exact Hseg].
    intros m w2 ys' w3 _ Hm.
    destruct (DucklingMatcher.dims self) as [ds|] eqn:Hd.
    + destruct (decide (DucklingMatch.dim m ∈ ds)) as [Hin|Hn].
      * destruct (extract (Segment.text segment) (Segment.spans segment)
                    [(DucklingMatch.start m, DucklingMatch.end_ m)])
          as [[text spans]|e] eqn:Hex.
        -- rewrite (entities_of_match_kept _ _ _ _ _ _ _ _ Hd Hin Hex) in Hm.
           cbv zeta in Hm. apply recorded_graph in Hm as [-> Hg].
           eexists. split; [exact Hg|]. cbn [Operation.prov_sink].
           destruct (DucklingMatcher._prov_builder self).
           ++ cbn [flat_map app map ProvNode.data_item_id Entity.id Attribute.id].
              rewrite norm_id_snoc. split; [reflexivity|].
              repeat (constructor; [split; [reflexivity | by exists segment]|]).
              constructor.
           ++ split; [reflexivity | constructor].
        -- by rewrite (entities_of_match_refused _ _ _ _ _ _ _ Hd Hin Hex) in Hm.
      * rewrite (entities_of_match_skipped _ _ _ _ _ _ Hd Hn) in Hm.
        injection Hm as <- <-. exists []. cbn. by rewrite app_nil_r.
    + unfold DucklingMatcher.entities_of_match in Hm. by rewrite Hd in Hm.
  - unfold QuickUMLSMatcher._find_matches_in_segment in Hseg.
    eapply for_yield_added; [|exact Hseg].
    intros c w2 ys' w3 _ Hc. destruct c as [|first others]; [discriminate|].
    destruct (extract (Segment.text segment) (Segment.spans segment)
                [(Candidate.start first, Candidate.end_ first)])
      as [[text spans]|e] eqn:Hex.
    + rewrite (entities_of_candidates_kept _ _ _ _ _ _ _ _ Hex) in Hc.
      cbv zeta in Hc. apply recorded_graph in Hc as [-> Hg].
      eexists. split; [exact Hg|]. cbn [Operation.prov_sink].
      destruct (QuickUMLSMatcher._prov_tracer self).
      * cbn [flat_map app map ProvNode.data_item_id Entity.id Attribute.id].
        rewrite norm_id_snoc. split; [reflexivity|].
        repeat (constructor; [split; [reflexivity | by exists segment]|]).
        constructor.
      * split; [reflexivity | constructor].
    + by rewrite (entities_of_candidates_refused _ _ _ _ _ _ _ Hex) in Hc.
Qed.

Lemma flat_map_recorded_ids op ents :
  flat_map (fun e => match Operation.prov_sink op with
                     | None => []
                     | Some _ => [Entity.id e; norm_id e]
                     end) ents
  = recorded_ids op ents.
Proof.
  unfold recorded_ids. destruct (Operation.prov_sink op); [reflexivity|].
  induction ents as [|e ents IH]; [reflexivity | exact IH].
Qed.

(** The provenance a run has recorded when it returns is that of the
    entities it returns and of their normalization attributes, in the
    order of the list, and nothing else: every node it has added names the
    description of the operation and has one of the segments as its only
    source; without a provenance sink the graph is as it was. *)
Theorem run_records_nothing_else op segments w ents w' :
  Operation.run extract repr requests_post op segments w = (Ok ents, w') ->
  exists added,
    World.graph w' = World.graph w ++ added /\
    map ProvNode.data_item_id added = recorded_ids op ents /\
    Forall (recorded_by op segments) added.
Proof.
  rewrite run_unfold, <- flat_map_recorded_ids. intros H.
  eapply for_yield_added; [|exact H].
  intros segment w0 ys w1 Hs Hseg. by eapply segment_added.
Qed.

End Recorded.

(** The nodes recorded for the date found by Duckling. *)
Lemma run_records_nothing_else_witness :
  exists added,
    World.graph
      (snd (Operation.run Scenario.extract Scenario.repr Scenario.requests_post
                          (Operation.OfDuckling Scenario.duckling)
                          [Scenario.other_sentence; Scenario.sentence]
                          Scenario.world))
    = World.graph Scenario.world ++ added /\
    map ProvNode.data_item_id added
    = recorded_ids (Operation.OfDuckling Scenario.duckling)
                   [Scenario.date_entity] /\
    Forall (recorded_by (Operation.OfDuckling Scenario.duckling)
                        [Scenario.other_sentence; Scenario.sentence]) added.
Proof.
  apply (run_records_nothing_else
           Scenario.extract Scenario.repr Scenario.requests_post
           (Operation.OfDuckling Scenario.duckling)
           [Scenario.other_sentence; Scenario.sentence] Scenario.world
           [Scenario.date_entity]).
  vm_compute. reflexivity.
Defined.

(** ** What [run] returns and leaves behind *)

Section Runs.
Variable extract : extract_fn.
Variable repr : string -> string.
Variable requests_post : string -> list (string * string) -> Response.t.

(** Running a matcher on a list of segments put end to end is running it
    on the first list and then, in the world that leaves, on the second: the
    entities come one list after the other, and a failure on the first list
    is the failure of the whole; on no segment at all a run returns no
    entity and changes nothing. *)
Theorem run_over_concatenation op segments1 segments2 w :
  Operation.run extract repr requests_post op (segments1 ++ segments2) w
  = (found <- Operation.run extract repr requests_post op segments1 ;;
     more <- Operation.run extract repr requests_post op segments2 ;;
     ret (found ++ more)) w /\
  Operation.run extract repr requests_post op [] w = (Ok [], w).
Proof.
  split; [|by destruct op].
  destruct op; apply for_yield_app.
Qed.

(** A DucklingMatcher returns one entity for each match of a requested
    dimension, in the order of the answers of the server: the entity has the
    dimension as its label, the extraction of the offsets of the match as
    its text and spans, and after the attributes taken over from the
    segment one attribute with the output label, the value of the match
    and the version in its metadata. *)
Theorem one_entity_per_kept_match self segments w ents w' :
  DucklingMatcher.run extract repr requests_post self segments w = (Ok ents, w') ->
  Forall2 (built_from_match extract self)
          (kept repr requests_post self segments) ents /\
  length ents = length (kept repr requests_post self segments).
Proof.
  intros H. apply kept_matches_built in H.
  split; [exact H | symmetry; by eapply Forall2_length].
Qed.

(** When a run returns, the warnings it has issued are one for each match
    of the answers whose dimension the DucklingMatcher did not ask for, and
    none for a QuickUMLSMatcher; the warnings that were there are kept. *)
Theorem run_warnings op segments w ents w' :
  Operation.run extract repr requests_post op segments w = (Ok ents, w') ->
  World.warnings w' = World.warnings w ++ issued repr requests_post op segments.
Proof.
  intros H. destruct op as [self|self]; cbn [Operation.run issued] in *.
  - by eapply skipped_matches_warned.
  - rewrite app_nil_r.
    pose proof (quickumls_run_warnings extract self segments w) as Hw.
    by rewrite H in Hw.
Qed.


(** A run that returns has drawn two identifiers for each entity, one
    for the entity and one for its normalization attribute, and no
    other: these identifiers were handed out during the run, and no two
    of them are equal. *)
Theorem run_draws_two_ids_per_entity op segments w ents w' :
  Operation.run extract repr requests_post op segments w = (Ok ents, w') ->
  World.next_id w' = (World.next_id w + 2 * length ents)%nat /\
  Forall (fun e => created_between w w' (Entity.id e) /\
                   created_between w w' (norm_id e)) ents /\
  NoDup (map Entity.id ents ++ map norm_id ents).
Proof.
  intros H. apply run_ids in H as [Hids Hnext].
  assert (flat_map (created_ids op) ents
          ≡ₚ map Entity.id ents ++ map norm_id ents) as Hperm.
  { clear. induction ents as [|e ents IH]; [reflexivity|].
    cbn [flat_map map app]. rewrite IH.
    destruct op; cbn [created_ids app]; rewrite <- Permutation_middle.
    - apply perm_swap.
    - reflexivity. }
  rewrite Hids in Hperm. split_and!; [exact Hnext | |].
  - apply Forall_forall. intros e He. unfold created_between. rewrite Hnext.
    assert (forall i, i ∈ map Entity.id ents ++ map norm_id ents ->
                      (World.next_id w <= i
                       < World.next_id w + 2 * length ents)%nat) as Hin.
    { intros i Hi. rewrite <- Hperm in Hi.
      by apply list_elem_of_In, in_seq in Hi. }
    split; apply Hin, elem_of_app; [left | right];
      apply list_elem_of_In, in_map; by apply list_elem_of_In.
  - rewrite <- Hperm. apply NoDup_ListNoDup, seq_NoDup.
Qed.

End Runs.

(** ** The attributes taken over *)



(** ** The constructor of a DucklingMatcher *)

Section DucklingConstructor.
Import DucklingMatcher.
Variable requests_get : string -> Response.t.

(** The constructor tests the connection after it has drawn the
    identifier: with a server that does not answer 200 at the url it raises
    a ConnectionError, and the identifier it drew when none was given is
    lost; otherwise it returns a matcher with the arguments as its fields,
    an empty attrs_to_copy when none was given, and no provenance
    builder. *)
Theorem constructor_tests_connection output_label version url locale dims
        attrs_to_copy proc_id w :
  let result :=
    __init__ requests_get output_label version url locale dims attrs_to_copy
             proc_id w in
  (Response.status_code (requests_get url) <> 200 ->
   fst result = Raise ConnectionError) /\
  (Response.status_code (requests_get url) = 200 ->
   fst result
   = Ok (mk (default (World.next_id w) proc_id) output_label version url
            locale dims (default [] attrs_to_copy) None)) /\
  snd result
  = match proc_id with
    | None => World.set_next_id (S (World.next_id w)) w
    | Some _ => w
    end.
Proof.
  cbv zeta. unfold __init__, bind, _test_connection, raise, ret.
  cbn [DucklingMatcher.url].
  split_and!.
  - intros H%Z.eqb_neq. rewrite H. by destruct proc_id.
  - intros ->. cbn [Z.eqb Pos.eqb negb].
    by destruct proc_id, attrs_to_copy.
  - destruct (Response.status_code (requests_get url) =? 200);
      by destruct proc_id.
Qed.

End DucklingConstructor.

(** ** The request sent to the Duckling server *)

Lemma replace_char_append old new s1 s2 :
  replace_char old new (String.append s1 s2)
  = String.append (replace_char old new s1) (replace_char old new s2).
Proof.
  induction s1 as [|c s1 IH]; [reflexivity|].
  change (String.append (String c s1) s2) with (String c (String.append s1 s2)).
  cbn [replace_char]. rewrite IH. reflexivity.
Qed.

Lemma replace_char_absent old new s :
  occurs old s = false -> replace_char old new s = s.
Proof.
  induction s as [|c s IH]; intros H; [reflexivity|].
  cbn [occurs] in H. apply orb_false_iff in H as [Hc Hs].
  cbn [replace_char]. by rewrite Hc, IH.
Qed.


Lemma occurs_replace_char old new s :
  old <> new -> occurs old (replace_char old new s) = false.
Proof.
  intros Hne. induction s as [|c s IH]; [reflexivity|].
  cbn [replace_char occurs]. rewrite IH, orb_false_r.
  destruct (Ascii.eqb_spec c old) as [->|Hc].
  - by apply Ascii.eqb_neq.
  - by apply Ascii.eqb_neq.
Qed.

Lemma replace_single_quoted s :
  occurs "'"%char s = false ->
  replace_char "'"%char "034"%char (single_quoted s) = double_quoted s.
Proof.
  intros H. unfold single_quoted, double_quoted.
  cbn [replace_char]. rewrite replace_char_append, (replace_char_absent _ _ _ H).
  reflexivity.
Qed.

Lemma replace_join_single_quoted (repr : string -> string) ds :
  Forall (fun d => repr d = single_quoted d /\ occurs "'"%char d = false) ds ->
  replace_char "'"%char "034"%char (join_comma (map repr ds))
  = join_comma (map double_quoted ds).
Proof.
  induction 1 as [|d ds [Hr Hd] Hds IH]; [reflexivity|].
  destruct ds as [|d' ds].
  - cbn. rewrite Hr. by apply replace_single_quoted.
  - cbn [map join_comma] in *. rewrite !replace_char_append, IH, Hr.
    by rewrite replace_single_quoted.
Qed.

Section Payload.
Import DucklingMatcher.
Variable repr : string -> string.

Lemma encode_dims_json ds :
  Forall (fun d => repr d = single_quoted d /\ occurs "'"%char d = false) ds ->
  encode_dims repr ds = double_quoted_list ds.
Proof.
  intros H. unfold encode_dims, double_quoted_list.
  rewrite !replace_char_append, (replace_join_single_quoted _ _ H).
  reflexivity.
Qed.

(** What the server is sent for a segment: the locale and the text, and,
    for a matcher with dimensions, those as a JSON list of strings between
    double quotes, which holds no single quote whatever [repr] writes. *)
Theorem payload_dims_json self segment :
  (dims self = None ->
   payload repr self segment
   = [("locale", locale self); ("text", Segment.text segment)]) /\
  (forall ds,
      dims self = Some ds ->
      exists encoded,
        payload repr self segment
        = [("locale", locale self); ("text", Segment.text segment);
           ("dims", encoded)] /\
        occurs "'"%char encoded = false /\
        (Forall (fun d => repr d = single_quoted d /\ occurs "'"%char d = false)
                ds ->
         encoded = double_quoted_list ds)).
Proof.
  split.
  - intros Hd. unfold payload. by rewrite Hd.
  - intros ds Hd. exists (encode_dims repr ds). split_and!.
    + unfold payload. by rewrite Hd.
    + apply occurs_replace_char. discriminate.
    + apply encode_dims_json.
Qed.

End Payload.

(** The request for the sentence, with the dimension asked for. *)
Lemma payload_dims_json_witness :
  DucklingMatcher.payload Scenario.repr Scenario.duckling Scenario.sentence
  = [("locale", "fr_FR"); ("text", "vu le 3 mars 2020");
     ("dims", String.append "[" (String.append (double_quoted "time") "]"))].
Proof.
  destruct (payload_dims_json Scenario.repr Scenario.duckling Scenario.sentence)
    as [_ H].
  destruct (H ["time"] eq_refl) as (encoded & -> & _ & He).
  rewrite He; [reflexivity|]. repeat constructor.
Defined.

(** ** The description of a DucklingMatcher, read back *)

Lemma of_str_list_inj l1 l2 : of_str_list l1 = of_str_list l2 -> l1 = l2.
Proof.
  intros H. apply (f_equal as_str_list) in H.
  rewrite !as_str_list_of_str_list in H. by injection H.
Qed.

Lemma of_optional_str_list_inj o1 o2 :
  of_optional_str_list o1 = of_optional_str_list o2 -> o1 = o2.
Proof.
  intros H. apply (f_equal as_optional_str_list) in H.
  rewrite !as_optional_str_list_of in H. by injection H.
Qed.

Lemma as_str_Some v s : as_str v = Some s -> v = PyStr s.
Proof. destruct v; try discriminate. by intros [= ->]. Qed.

Lemma as_str_list_Some v l : as_str_list v = Some l -> v = of_str_list l.
Proof.
  destruct v as [| | | | |items|]; try discriminate. cbn [as_str_list].
  unfold of_str_list. intros H. f_equal.
  revert l H. induction items as [|v items IH]; intros l H.
  - by injection H as <-.
  - cbn [as_str_list_items] in H.
    destruct (as_str v) as [s|] eqn:Hs; [|discriminate].
    destruct (as_str_list_items items) as [more|]; [|discriminate].
    injection H as <-. cbn [map]. by rewrite (as_str_Some _ _ Hs), (IH more).
Qed.

Lemma as_optional_str_list_Some v o :
  as_optional_str_list v = Some o -> v = of_optional_str_list o.
Proof.
  destruct v; cbn; try discriminate.
  - by intros [= <-].
  - destruct (as_str_list_items l) as [items|] eqn:E; [|discriminate].
    intros [= <-]. by apply (as_str_list_Some (PyList l)).
Qed.

Section DescriptionOf.
Import DucklingMatcher.

Lemma same_configuration_description a b :
  same_configuration a b -> description a = description b.
Proof.
  destruct a, b. unfold same_configuration. cbn.
  intros (-> & -> & -> & -> & -> & -> & ->). reflexivity.
Qed.

Lemma description_same_configuration a b :
  description a = description b -> same_configuration a b.
Proof.
  intros H.
  destruct (description_config_lookup a) as (A1 & A2 & A3 & A4 & A5 & A6).
  destruct (description_config_lookup b) as (B1 & B2 & B3 & B4 & B5 & B6).
  cbv zeta in *. rewrite H in A1, A2, A3, A4, A5, A6.
  unfold same_configuration. split_and!.
  - by apply (f_equal OperationDescription.id) in H.
  - congruence.
  - congruence.
  - congruence.
  - congruence.
  - apply of_optional_str_list_inj. congruence.
  - apply of_str_list_inj. congruence.
Qed.

(** The description holds the whole configuration of the matcher and
    nothing else: two matchers have the same description exactly when they
    have the same id, output_label, version, url, locale, dims and
    attrs_to_copy; attaching a provenance builder does not change it. *)
Theorem description_is_configuration a b prov_builder :
  (description a = description b <-> same_configuration a b) /\
  description (set_prov_builder a prov_builder) = description a /\
  OperationDescription.name (description a) = "DucklingMatcher" /\
  dom (OperationDescription.config (description a)) = config_parameters.
Proof.
  split_and!.
  - split; [apply description_same_configuration
           | apply same_configuration_description].
  - apply same_configuration_description. by destruct a.
  - reflexivity.
  - unfold description, config_parameters. cbn [OperationDescription.config].
    rewrite dom_list_to_map_L. reflexivity.
Qed.

End DescriptionOf.

Section FromDescription.
Import DucklingMatcher.
Variable requests_get : string -> Response.t.

Lemma required_Ok_inv {A} kwargs name (read : PyValue -> option A) a :
  required kwargs name read = Ok a ->
  exists v, kwargs !! name = Some v /\ read v = Some a.
Proof.
  unfold required. destruct (kwargs !! name) as [v|]; [|discriminate].
  destruct (read v) as [a'|] eqn:E; [|discriminate].
  intros [= <-]. by exists v.
Qed.

Lemma keyword_Ok_inv {A} kwargs name (read : PyValue -> option A) d a :
  keyword kwargs name read d = Ok a ->
  (kwargs !! name = None /\ a = d) \/
  exists v, kwargs !! name = Some v /\ read v = Some a.
Proof.
  unfold keyword. destruct (kwargs !! name) as [v|]; [|intros [= <-]; by left].
  destruct (read v) as [a'|] eqn:E; [|discriminate].
  intros [= <-]. right. by exists v.
Qed.

Lemma lift_bind_Ok_inv {A B} (r : Result A) (k : A -> M B) w b w' :
  (x <- lift r ;; k x) w = (Ok b, w') ->
  exists a, r = Ok a /\ k a w = (Ok b, w').
Proof.
  intros H. apply bind_Ok_inv in H as (a & w1 & Hl & H).
  unfold lift in Hl. injection Hl as -> <-. by exists a.
Qed.

Lemma __init___given_id output_label version url locale dims attrs_to_copy i w :
  __init__ requests_get output_label version url locale dims attrs_to_copy
           (Some i) w
  = (if Response.status_code (requests_get url) =? 200
     then Ok (mk i output_label version url locale dims
                 (default [] attrs_to_copy) None)
     else Raise ConnectionError, w).
Proof.
  unfold __init__, bind, ret, _test_connection, raise. cbn [DucklingMatcher.url].
  destruct (Response.status_code (requests_get url) =? 200); cbn [negb];
    by destruct attrs_to_copy.
Qed.

(** What [from_description] returns when it returns. *)
Lemma from_description_Ok_inv d w m w' :
  from_description requests_get d w = (Ok m, w') ->
  let config := OperationDescription.config d in
  w' = w /\
  id m = OperationDescription.id d /\
  _prov_builder m = None /\
  Response.status_code (requests_get (url m)) = 200 /\
  dom config ⊆ config_parameters /\
  config !! "output_label" = Some (PyStr (output_label m)) /\
  config !! "version" = Some (PyStr (version m)) /\
  default (PyStr "http://localhost:8000") (config !! "url") = PyStr (url m) /\
  default (PyStr "fr_FR") (config !! "locale") = PyStr (locale m) /\
  default PyNone (config !! "dims") = of_optional_str_list (dims m) /\
  exists given,
    default PyNone (config !! "attrs_to_copy") = of_optional_str_list given /\
    attrs_to_copy m = default [] given.
Proof.
  unfold from_description. case_bool_decide as Hdom; cbn [negb]; [|discriminate].
  intros H.
  apply lift_bind_Ok_inv in H as (ol & Hol & H).
  apply lift_bind_Ok_inv in H as (ve & Hve & H).
  apply lift_bind_Ok_inv in H as (ur & Hur & H).
  apply lift_bind_Ok_inv in H as (lo & Hlo & H).
  apply lift_bind_Ok_inv in H as (di & Hdi & H).
  apply lift_bind_Ok_inv in H as (at_ & Hat & H).
  rewrite __init___given_id in H.
  destruct (Z.eqb_spec (Response.status_code (requests_get ur)) 200) as [E|E];
    [|discriminate].
  injection H as <- <-. cbv zeta. cbn [id _prov_builder url output_label version
                                       locale dims attrs_to_copy].
  apply required_Ok_inv in Hol as (v1 & -> & ->%as_str_Some).
  apply required_Ok_inv in Hve as (v2 & -> & ->%as_str_Some).
  split_and!; try done.
  - by apply keyword_Ok_inv in Hur as [[-> ->]|(v & -> & ->%as_str_Some)].
  - by apply keyword_Ok_inv in Hlo as [[-> ->]|(v & -> & ->%as_str_Some)].
  - by apply keyword_Ok_inv in Hdi
      as [[-> ->]|(v & -> & ->%as_optional_str_list_Some)].
  - exists at_.
    by apply keyword_Ok_inv in Hat
      as [[-> ->]|(v & -> & ->%as_optional_str_list_Some)].
Qed.



(** Every field of the matcher that [from_description] returns is read
    from the configuration, with the defaults of the constructor for
    the entries that are left out. *)
Theorem from_description_reads_config d w m w' :
  from_description requests_get d w = (Ok m, w') ->
  let config := OperationDescription.config d in
  _prov_builder m = None /\
  dom config ⊆ config_parameters /\
  config !! "output_label" = Some (PyStr (output_label m)) /\
  config !! "version" = Some (PyStr (version m)) /\
  default (PyStr "http://localhost:8000") (config !! "url") = PyStr (url m) /\
  default (PyStr "fr_FR") (config !! "locale") = PyStr (locale m) /\
  default PyNone (config !! "dims") = of_optional_str_list (dims m) /\
  exists given,
    default PyNone (config !! "attrs_to_copy") = of_optional_str_list given /\
    attrs_to_copy m = default [] given.
Proof.
  intros H. apply from_description_Ok_inv in H. cbv zeta in *.
  destruct H as (_ & _ & H1 & _ & H2). by split.
Qed.


End FromDescription.

(** ** The workaround for the language map of quickumls *)

Section LanguageMap.
Import QuickUMLSMatcher.
Variable quickumls_before_1_4_1 : bool.

Lemma _fix_spacy_language_map_eq w :
  _fix_spacy_language_map quickumls_before_1_4_1 w
  = (Ok tt,
     if World._spacy_language_map_fixed w then w
     else World.set_spacy_language_map true
            (if quickumls_before_1_4_1
             then spacy_model <$> World.SPACY_LANGUAGE_MAP w
             else World.SPACY_LANGUAGE_MAP w) w).
Proof.
  unfold _fix_spacy_language_map.
  by destruct (World._spacy_language_map_fixed w).
Qed.

(** The workaround is applied once: the first call completes every value
    of the language map of an old quickumls with the suffix of its model
    and keeps the keys; every later call changes nothing, so that no value
    gets the suffix twice. *)
Theorem language_map_fixed_once w :
  let fix_ w0 := snd (_fix_spacy_language_map quickumls_before_1_4_1 w0) in
  World._spacy_language_map_fixed (fix_ w) = true /\
  fix_ (fix_ w) = fix_ w /\
  dom (World.SPACY_LANGUAGE_MAP (fix_ w)) = dom (World.SPACY_LANGUAGE_MAP w) /\
  (World._spacy_language_map_fixed w = false ->
   quickumls_before_1_4_1 = true ->
   forall key,
     World.SPACY_LANGUAGE_MAP (fix_ w) !! key
     = spacy_model <$> World.SPACY_LANGUAGE_MAP w !! key) /\
  (World._spacy_language_map_fixed w = true \/ quickumls_before_1_4_1 = false ->
   World.SPACY_LANGUAGE_MAP (fix_ w) = World.SPACY_LANGUAGE_MAP w).
Proof.
  cbv beta zeta. rewrite !_fix_spacy_language_map_eq. cbn [snd].
  destruct (World._spacy_language_map_fixed w) eqn:Hf.
  - rewrite Hf. split_and!; try done.
  - cbn [World._spacy_language_map_fixed World.set_spacy_language_map].
    split_and!; try done.
    + destruct quickumls_before_1_4_1; [|done].
      cbn [World.SPACY_LANGUAGE_MAP]. apply dom_fmap_L.
    + intros _ ->. intros key. cbn [World.SPACY_LANGUAGE_MAP].
      apply lookup_fmap.
    + intros [?| ->]; [done|]. reflexivity.
Qed.

End LanguageMap.

(** ** The constructor of a QuickUMLSMatcher *)

Section Constructor.
Import QuickUMLSMatcher.
Variable new_QuickUMLS :
  string -> string -> Z -> Z -> string -> list string -> Result QuickUMLS.t.
Variable quickumls_before_1_4_1 : bool.
Variable config_of : InitArgs.t -> gmap string PyValue.

Lemma consistent_flags_eqb q install :
  String.eqb (QuickUMLS.language_flag q) install.1.1.2
  && Bool.eqb (QuickUMLS.to_lowercase_flag q) install.1.2
  && Bool.eqb (QuickUMLS.normalize_unicode_flag q) install.2 = true
  <-> consistent_flags q install.
Proof.
  unfold consistent_flags.
  rewrite !andb_true_iff, String.eqb_eq, !Bool.eqb_true_iff. tauto.
Qed.

Lemma NEROperation__init___eq init_args w :
  NEROperation__init__ config_of init_args w
  = (Ok (default (World.next_id w) (InitArgs.uid init_args),
         OperationDescription.mk
           (default (World.next_id w) (InitArgs.uid init_args))
           (default __name__ (InitArgs.name init_args))
           (config_of init_args)),
     match InitArgs.uid init_args with
     | None => World.set_next_id (S (World.next_id w)) w
     | Some _ => w
     end).
Proof.
  unfold NEROperation__init__, bind.
  by destruct (InitArgs.uid init_args), (InitArgs.name init_args).
Qed.

Lemma install_paths_started init_args w :
  World._install_paths
    match InitArgs.uid init_args with
    | None =>
        World.set_next_id
          (S (World.next_id
                (if World._spacy_language_map_fixed w then w
                 else World.set_spacy_language_map true
                        (if quickumls_before_1_4_1
                         then spacy_model <$> World.SPACY_LANGUAGE_MAP w
                         else World.SPACY_LANGUAGE_MAP w) w)))
          (if World._spacy_language_map_fixed w then w
           else World.set_spacy_language_map true
                  (if quickumls_before_1_4_1
                   then spacy_model <$> World.SPACY_LANGUAGE_MAP w
                   else World.SPACY_LANGUAGE_MAP w) w)
    | Some _ =>
        if World._spacy_language_map_fixed w then w
        else World.set_spacy_language_map true
               (if quickumls_before_1_4_1
                then spacy_model <$> World.SPACY_LANGUAGE_MAP w
                else World.SPACY_LANGUAGE_MAP w) w
    end
  = World._install_paths w.
Proof.
  by destruct (InitArgs.uid init_args), (World._spacy_language_map_fixed w).
Qed.

Lemma __init___eq init_args w :
  __init__ new_QuickUMLS quickumls_before_1_4_1 config_of init_args w
  = (match World._install_paths w !! install_of init_args with
     | None => Raise Exception_
     | Some path =>
         match quickumls_for new_QuickUMLS init_args path with
         | Raise e => Raise e
         | Ok q =>
             if String.eqb (QuickUMLS.language_flag q) (InitArgs.language init_args)
                && Bool.eqb (QuickUMLS.to_lowercase_flag q)
                            (InitArgs.lowercase init_args)
                && Bool.eqb (QuickUMLS.normalize_unicode_flag q)
                            (InitArgs.normalize_unicode init_args)
             then
               let uid := default (World.next_id w) (InitArgs.uid init_args) in
               Ok (mk uid
                      (OperationDescription.mk
                         uid (default __name__ (InitArgs.name init_args))
                         (config_of init_args))
                      None (InitArgs.language init_args)
                      (InitArgs.version init_args)
                      (InitArgs.lowercase init_args)
                      (InitArgs.normalize_unicode init_args)
                      (InitArgs.overlapping init_args)
                      (InitArgs.threshold init_args)
                      (InitArgs.similarity init_args)
                      (InitArgs.window init_args)
                      (InitArgs.accepted_semtypes init_args)
                      (default [] (InitArgs.attrs_to_copy init_args)) q)
             else Raise AssertionError
         end
     end,
     started quickumls_before_1_4_1 init_args w).
Proof.
  unfold started. rewrite _fix_spacy_language_map_eq. cbn [snd].
  unfold __init__.
  rewrite bind_Ok with (1 := _fix_spacy_language_map_eq quickumls_before_1_4_1 w).
  rewrite bind_Ok with (1 := NEROperation__init___eq _ _).
  cbn [fst snd]. unfold bind at 1.
  rewrite _get_path_to_install_lookup, install_paths_started.
  fold (install_of init_args).
  destruct (World._install_paths w !! install_of init_args) as [path|];
    [|reflexivity].
  unfold bind, lift. fold (quickumls_for new_QuickUMLS init_args path).
  destruct (quickumls_for new_QuickUMLS init_args path) as [q|e]; [|reflexivity].
  assert (World.next_id
            (if World._spacy_language_map_fixed w then w
             else World.set_spacy_language_map true
                    (if quickumls_before_1_4_1
                     then spacy_model <$> World.SPACY_LANGUAGE_MAP w
                     else World.SPACY_LANGUAGE_MAP w) w)
          = World.next_id w) as ->
      by by destruct (World._spacy_language_map_fixed w).
  destruct (_ && _); reflexivity.
Qed.

Lemma started_world init_args w :
  World._spacy_language_map_fixed (started quickumls_before_1_4_1 init_args w) = true /\
  World._install_paths (started quickumls_before_1_4_1 init_args w) = World._install_paths w /\
  World.graph (started quickumls_before_1_4_1 init_args w) = World.graph w /\
  World.next_id (started quickumls_before_1_4_1 init_args w)
  = match InitArgs.uid init_args with
    | None => S (World.next_id w)
    | Some _ => World.next_id w
    end.
Proof.
  unfold started. rewrite _fix_spacy_language_map_eq. cbn [snd].
  by destruct (InitArgs.uid init_args),
              (World._spacy_language_map_fixed w) eqn:E.
Qed.

(** A matcher that the constructor returns holds the QuickUMLS object
    made for the path of the install registered for its settings, whose
    flags are those settings; it has the arguments as its fields and an
    empty attrs_to_copy when none was given.  The workaround for the
    language map has been applied, and the registry is as it was. *)
Theorem constructor_returns_registered_install init_args w m w' :
  __init__ new_QuickUMLS quickumls_before_1_4_1 config_of init_args w
  = (Ok m, w') ->
  (version m, language m, lowercase m, normalize_unicode m)
  = install_of init_args /\
  (exists path,
      World._install_paths w !! install_of init_args = Some path /\
      quickumls_for new_QuickUMLS init_args path = Ok (_matcher m)) /\
  consistent_flags (_matcher m) (install_of init_args) /\
  (overlapping m, threshold m, window m, similarity m, accepted_semtypes m)
  = (InitArgs.overlapping init_args, InitArgs.threshold init_args,
     InitArgs.window init_args, InitArgs.similarity init_args,
     InitArgs.accepted_semtypes init_args) /\
  attrs_to_copy m = default [] (InitArgs.attrs_to_copy init_args) /\
  World._spacy_language_map_fixed w' = true /\
  World._install_paths w' = World._install_paths w.
Proof.
  rewrite __init___eq. intros H.
  destruct (started_world init_args w) as (Hfixed & Hpaths & _).
  destruct (World._install_paths w !! install_of init_args) as [path|];
    [|discriminate].
  destruct (quickumls_for new_QuickUMLS init_args path) as [q|e] eqn:Hq;
    [|discriminate].
  destruct (_ && _) eqn:Hflags; [|discriminate].
  cbv zeta in H. injection H as <- <-. cbn.
  split_and!; try done.
  - by exists path.
  - by apply (consistent_flags_eqb q (install_of init_args)).
Qed.

(** The failures of the constructor once the install is found in the
    registry: the exception of the QuickUMLS constructor, and an
    AssertionError for a QuickUMLS object whose flags are not the settings
    asked for.  However the constructor ends, the workaround for the
    language map has been applied and the registry of installs is as it
    was. *)
Theorem constructor_failures init_args path w :
  let result :=
    __init__ new_QuickUMLS quickumls_before_1_4_1 config_of init_args w in
  World._install_paths w !! install_of init_args = Some path ->
  (forall e, quickumls_for new_QuickUMLS init_args path = Raise e ->
             fst result = Raise e) /\
  (forall q, quickumls_for new_QuickUMLS init_args path = Ok q ->
             ~ consistent_flags q (install_of init_args) ->
             fst result = Raise AssertionError) /\
  World._spacy_language_map_fixed (snd result) = true /\
  World._install_paths (snd result) = World._install_paths w.
Proof.
  cbv zeta. intros Hpath. rewrite __init___eq, Hpath. cbn [fst snd].
  destruct (started_world init_args w) as (Hfixed & Hpaths & _).
  split_and!; try done.
  - by intros e ->.
  - intros q -> Hflags.
    destruct (_ && _) eqn:E; [|reflexivity].
    by apply (consistent_flags_eqb q (install_of init_args)) in E.
Qed.

(** The constructor returns a matcher exactly when an install is
    registered for the four settings, the QuickUMLS constructor returns an
    object for its path, and the flags of that object are the settings. *)
Theorem constructor_succeeds_iff init_args w :
  is_ok (fst (__init__ new_QuickUMLS quickumls_before_1_4_1 config_of
                       init_args w)) = true <->
  exists path q,
    World._install_paths w !! install_of init_args = Some path /\
    quickumls_for new_QuickUMLS init_args path = Ok q /\
    consistent_flags q (install_of init_args).
Proof.
  rewrite __init___eq. cbn [fst].
  destruct (World._install_paths w !! install_of init_args) as [path|].
  - destruct (quickumls_for new_QuickUMLS init_args path) as [q|e] eqn:Hq.
    + destruct (_ && _) eqn:E; cbv zeta; cbn [is_ok].
      * split; [intros _|done]. exists path, q. split_and!; try done.
        by apply (consistent_flags_eqb q (install_of init_args)).
      * split; [discriminate|]. intros (p & q' & [= <-] & Hq' & Hflags).
        rewrite Hq in Hq'. injection Hq' as <-.
        apply (consistent_flags_eqb q (install_of init_args)) in Hflags.
        cbn [install_of fst snd] in Hflags. rewrite Hflags in E. discriminate.
    + split; [discriminate|]. intros (p & q' & [= <-] & Hq' & _). congruence.
  - split; [discriminate|]. by intros (p & q' & ? & _).
Qed.

End Constructor.

(** ** The properties on the cases *)

(** The date is the one match of a requested dimension. *)
Lemma one_entity_per_kept_match_witness :
  Forall2 (built_from_match Scenario.extract Scenario.duckling)
          (kept Scenario.repr Scenario.requests_post Scenario.duckling
                [Scenario.other_sentence; Scenario.sentence])
          [Scenario.date_entity] /\
  length [Scenario.date_entity]
  = length (kept Scenario.repr Scenario.requests_post Scenario.duckling
                 [Scenario.other_sentence; Scenario.sentence]).
Proof.
  apply (one_entity_per_kept_match
           Scenario.extract Scenario.repr Scenario.requests_post
           Scenario.duckling [Scenario.other_sentence; Scenario.sentence]
           Scenario.world [Scenario.date_entity]
           (snd (DucklingMatcher.run
                   Scenario.extract Scenario.repr Scenario.requests_post
                   Scenario.duckling
                   [Scenario.other_sentence; Scenario.sentence]
                   Scenario.world))).
  vm_compute. reflexivity.
Defined.

(** A matcher that asks for durations is sent a date: one warning. *)
Lemma run_warnings_witness :
  World.warnings
    (snd (Operation.run Scenario.extract Scenario.repr Scenario.requests_post
                        (Operation.OfDuckling Cases.duckling_durations)
                        [Scenario.sentence] Scenario.world))
  = World.warnings Scenario.world ++
    issued Scenario.repr Scenario.requests_post
           (Operation.OfDuckling Cases.duckling_durations) [Scenario.sentence].
Proof.
  apply (run_warnings
           Scenario.extract Scenario.repr Scenario.requests_post
           (Operation.OfDuckling Cases.duckling_durations)
           [Scenario.sentence] Scenario.world []).
  vm_compute. reflexivity.
Defined.



(** The graph after the concept found by QuickUMLS was recorded. *)
Lemma run_keeps_graph_known_witness :
  graph_known
    (snd (Operation.run Scenario.extract Scenario.repr Scenario.requests_post
                        (Operation.OfQuickUMLS Scenario.quickumls_matcher)
                        [Scenario.other_sentence; Scenario.sentence]
                        Scenario.world)).
Proof.
  apply (run_keeps_graph_known
           Scenario.extract Scenario.repr Scenario.requests_post
           (Operation.OfQuickUMLS Scenario.quickumls_matcher)
           [Scenario.other_sentence; Scenario.sentence] Scenario.world).
  constructor.
Defined.

(** The two identifiers drawn for the concept found by QuickUMLS. *)
Lemma run_draws_two_ids_per_entity_witness :
  World.next_id
    (snd (Operation.run Scenario.extract Scenario.repr Scenario.requests_post
                        (Operation.OfQuickUMLS Scenario.quickumls_matcher)
                        [Scenario.other_sentence; Scenario.sentence]
                        Scenario.world))
  = (World.next_id Scenario.world + 2 * length [Scenario.umls_entity])%nat /\
  Forall (fun e =>
            created_between
              Scenario.world
              (snd (Operation.run
                      Scenario.extract Scenario.repr Scenario.requests_post
                      (Operation.OfQuickUMLS Scenario.quickumls_matcher)
                      [Scenario.other_sentence; Scenario.sentence]
                      Scenario.world))
              (Entity.id e) /\
            created_between
              Scenario.world
              (snd (Operation.run
                      Scenario.extract Scenario.repr Scenario.requests_post
                      (Operation.OfQuickUMLS Scenario.quickumls_matcher)
                      [Scenario.other_sentence; Scenario.sentence]
                      Scenario.world))
              (norm_id e))
         [Scenario.umls_entity] /\
  NoDup (map Entity.id [Scenario.umls_entity] ++
         map norm_id [Scenario.umls_entity]).
Proof.
  apply (run_draws_two_ids_per_entity
           Scenario.extract Scenario.repr Scenario.requests_post
           (Operation.OfQuickUMLS Scenario.quickumls_matcher)
           [Scenario.other_sentence; Scenario.sentence] Scenario.world
           [Scenario.umls_entity]).
  vm_compute. reflexivity.
Defined.


(** The defaults of the url and of the dimensions, for the short
    description. *)
Lemma from_description_reads_config_witness :
  default (PyStr "http://localhost:8000")
          (OperationDescription.config Cases.short_description !! "url")
  = PyStr "http://localhost:8000" /\
  default PyNone (OperationDescription.config Cases.short_description !! "dims")
  = of_optional_str_list None.
Proof.
  destruct (from_description_reads_config
              Scenario.requests_get Cases.short_description Scenario.world
              (DucklingMatcher.mk 9%nat "duckling" "0.2.0"
                                  "http://localhost:8000" "fr_FR" None [] None)
              Scenario.world) as (_ & _ & _ & _ & H1 & _ & H2 & _).
  - vm_compute. reflexivity.
  - split; [exact H1 | exact H2].
Defined.


(** The matcher constructed for the french install. *)
Lemma constructor_returns_registered_install_witness :
  (exists path,
      World._install_paths Cases.installed !! install_of Scenario.init_args
      = Some path /\
      quickumls_for Scenario.new_QuickUMLS Scenario.init_args path
      = Ok Scenario.quickumls) /\
  consistent_flags Scenario.quickumls (install_of Scenario.init_args).
Proof.
  destruct (constructor_returns_registered_install
              Scenario.new_QuickUMLS false (fun _ => ∅)
              Scenario.init_args Cases.installed
              (QuickUMLSMatcher.mk
                 3%nat (OperationDescription.mk 3%nat "QuickUMLSMatcher" ∅)
                 None "FRE" "2021AB" true false "length" 4606281698874543309
                 "jaccard" 5 ["T079"; "T083"] [] Scenario.quickumls)
              (started false Scenario.init_args Cases.installed))
    as (_ & Hpath & Hflags & _).
  - rewrite __init___eq.
    assert (World._install_paths Cases.installed !! install_of Scenario.init_args
            = Some "/opt/quickumls/fre") as ->; [|reflexivity].
    apply lookup_insert_eq.
  - split; [exact Hpath | exact Hflags].
Defined.

(** After the registration of the french install the constructor
    returns a matcher. *)
Lemma constructor_succeeds_iff_witness :
  is_ok (fst (QuickUMLSMatcher.__init__
                Scenario.new_QuickUMLS false (fun _ => ∅) Scenario.init_args
                (snd (QuickUMLSMatcher.add_install
                        (PathStr "/opt/quickumls/fre") "2021AB" "FRE" true
                        false Scenario.world))))
  = true.
Proof.
  apply (constructor_succeeds_iff
           Scenario.new_QuickUMLS false (fun _ => ∅) Scenario.init_args
           (snd (QuickUMLSMatcher.add_install
                   (PathStr "/opt/quickumls/fre") "2021AB" "FRE" true false
                   Scenario.world))).
  exists "/opt/quickumls/fre", Scenario.quickumls. split_and!.
  - apply lookup_insert_eq.
  - reflexivity.
  - done.
Defined.

(** The french QuickUMLS object found at the path of the english
    install. *)
Lemma constructor_failures_witness :
  fst (QuickUMLSMatcher.__init__ Scenario.new_QuickUMLS false (fun _ => ∅)
                                 Cases.english_args Cases.english_installed)
  = Raise AssertionError /\
  World._spacy_language_map_fixed
    (snd (QuickUMLSMatcher.__init__ Scenario.new_QuickUMLS false (fun _ => ∅)
                                    Cases.english_args Cases.english_installed))
  = true.
Proof.
  destruct (constructor_failures
              Scenario.new_QuickUMLS false (fun _ => ∅)
              Cases.english_args "/opt/quickumls/eng" Cases.english_installed)
    as (_ & Hassert & Hfixed & _).
  - apply lookup_insert_eq.
  - split; [|exact Hfixed].
    apply (Hassert Scenario.quickumls); [reflexivity|].
    intros (Hl & _). discriminate.
Defined.

(** The english and the french model of an old quickumls. *)
Lemma language_map_fixed_once_witness :
  World.SPACY_LANGUAGE_MAP
    (snd (QuickUMLSMatcher._fix_spacy_language_map true Cases.unfixed))
    !! "ENG" = Some "en_core_web_sm" /\
  World.SPACY_LANGUAGE_MAP
    (snd (QuickUMLSMatcher._fix_spacy_language_map true Cases.unfixed))
    !! "FRE" = Some "fr_core_news_sm".
Proof.
  destruct (language_map_fixed_once true Cases.unfixed) as (_ & _ & _ & H & _).
  cbv beta zeta in H. rewrite !H by reflexivity. split; vm_compute; reflexivity.
Defined.
